(** * aimakerspace.text_utils: loaders and the character splitter

    A shallow embedding of [02_Embeddings_and_RAG/aimakerspace/text_utils.py]
    (classes [TextFileLoader], [CharacterTextSplitter], [YouTubeLoader]) and
    the properties its design document states about them.

    Conventions of the embedding:
    - a Python [str] is a [string] (characters are [ascii]); a Python [int]
      is a [Z]; a Python [list] is a [list];
    - a method that can raise returns an [outcome]; a method that mutates
      [self] or talks to the outside world is a state transformer over the
      object and a log of the external calls it made;
    - the file system, the HTTP transport and the transcript service are
      parameters of the methods that use them. *)

From Stdlib Require Import ZArith Lia String Ascii List Bool.
From stdpp Require Import base list strings gmap pretty.

Local Open Scope string_scope.
Local Open Scope list_scope.
Local Open Scope Z_scope.

(** ** Python strings *)

Module PyStr.

(** [len(s)] *)
Definition len (s : string) : Z := Z.of_nat (String.length s).

(** A slice bound as CPython's [PySlice_AdjustIndices] clamps it (step 1):
    a negative bound counts from the end, and the result is clipped to
    [0 .. len]. *)
Definition adjust (n i : Z) : Z :=
  if i <? 0 then Z.max 0 (i + n) else Z.min i n.

(** [s[i:j]] *)
Definition slice (s : string) (i j : Z) : string :=
  let lo := adjust (len s) i in
  let hi := adjust (len s) j in
  if lo <? hi then substring (Z.to_nat lo) (Z.to_nat (hi - lo)) s else "".

(** [s.startswith(p)] *)
Definition startswith (s p : string) : bool := String.prefix p s.

(** [s.endswith(p)] *)
Definition endswith (s p : string) : bool :=
  let n := String.length s in
  let k := String.length p in
  (k <=? n)%nat && String.eqb (substring (n - k) k s) p.

(** [sep.join(parts)] *)
Fixpoint join (sep : string) (parts : list string) : string :=
  match parts with
  | [] => ""
  | [p] => p
  | p :: rest => p +:+ sep +:+ join sep rest
  end.

(** The line feed character and the one-character string of it. *)
Definition lf : ascii := ascii_of_nat 10.
Definition nl : string := String lf "".

(** [c in s] for a character. *)
Fixpoint contains (c : ascii) (s : string) : bool :=
  match s with
  | EmptyString => false
  | String d rest => Ascii.eqb c d || contains c rest
  end.

Definition single_quote : ascii := ascii_of_nat 39.
Definition double_quote : ascii := ascii_of_nat 34.
Definition backslash : ascii := ascii_of_nat 92.

(** The two lower-case hexadecimal digits of a character code. *)
Definition hex_digit (n : nat) : ascii :=
  nth n (list_ascii_of_string "0123456789abcdef") "0"%char.
Definition hex2 (c : ascii) : string :=
  let n := nat_of_ascii c in
  String (hex_digit (n / 16)) (String (hex_digit (n mod 16)) "").

(** [str.isprintable] on one character of code below 256. *)
Definition printable (c : ascii) : bool :=
  let n := nat_of_ascii c in
  ((32 <=? n) && (n <? 127) || (161 <=? n) && negb (n =? 173))%nat.

(** One character inside [repr(s)], for the quote chosen. *)
Definition repr_char (quote c : ascii) : string :=
  if Ascii.eqb c quote || Ascii.eqb c backslash then String backslash (String c "")
  else if Ascii.eqb c (ascii_of_nat 9) then String backslash "t"
  else if Ascii.eqb c (ascii_of_nat 10) then String backslash "n"
  else if Ascii.eqb c (ascii_of_nat 13) then String backslash "r"
  else if printable c then String c ""
  else String backslash (String "x" (hex2 c)).

Fixpoint repr_body (quote : ascii) (s : string) : string :=
  match s with
  | EmptyString => ""
  | String c rest => repr_char quote c +:+ repr_body quote rest
  end.

(** [repr(s)] of a [str]: single quotes, unless the string has a single
    quote and no double quote. *)
Definition repr (s : string) : string :=
  let quote :=
    if contains single_quote s && negb (contains double_quote s)
    then double_quote else single_quote in
  String quote (repr_body quote s +:+ String quote "").

End PyStr.

(** [range(start, stop, step)] as a list: [None] stands for the
    [ValueError] of a zero step; the number of elements is the one CPython
    computes in [compute_range_length]. *)
Definition range_length (start stop step : Z) : Z :=
  if 0 <? step then
    if start <? stop then (stop - start - 1) / step + 1 else 0
  else
    if stop <? start then (start - stop - 1) / (- step) + 1 else 0.

Definition py_range (start stop step : Z) : option (list Z) :=
  if step =? 0 then None
  else Some (map (fun k => start + Z.of_nat k * step)
                 (seq 0 (Z.to_nat (range_length start stop step)))).

(** ** Exceptions and outcomes *)

Inductive exn_class : Type :=
| AssertionError
| ValueError
| AttributeError
| OSError
| UnicodeDecodeError
| OtherException (name : string)    (* another class derived from Exception *)
| NonException (name : string).     (* derived from BaseException only:
                                       KeyboardInterrupt, SystemExit, ... *)

(** An exception instance: its class and [str(e)]. *)
Record exn : Type := Exn { exn_cls : exn_class; exn_str : string }.

(** [isinstance(e, Exception)]: what [except Exception] catches. *)
Definition is_exception (e : exn) : bool :=
  match exn_cls e with
  | NonException _ => false
  | _ => true
  end.

Inductive outcome (A : Type) : Type :=
| Returns (a : A)
| Raises (e : exn).
Arguments Returns {A} a.
Arguments Raises {A} e.

(** ** CharacterTextSplitter *)

Module CharacterTextSplitter.

Record t : Type := MkSplitter {
  chunk_size : Z;
  chunk_overlap : Z
}.

Definition assert_msg : string :=
  "Chunk size must be greater than chunk overlap".

(** [CharacterTextSplitter.__init__]; the [assert] is in force, as when
    the interpreter runs without [-O]. *)
Definition __init__ (size overlap : Z) : outcome t :=
  if overlap <? size
  then Returns (MkSplitter size overlap)
  else Raises (Exn AssertionError assert_msg).

(** The default arguments of [__init__]. *)
Definition default_chunk_size : Z := 1000.
Definition default_chunk_overlap : Z := 200.

(** [CharacterTextSplitter.split] *)
Definition split (self : t) (text : string)
  : outcome (list string) :=
  match py_range 0 (PyStr.len text) (chunk_size self - chunk_overlap self) with
  | None => Raises (Exn ValueError "range() arg 3 must not be zero")
  | Some offsets =>
      Returns (map (fun i => PyStr.slice text i (i + chunk_size self)) offsets)
  end.

(** [CharacterTextSplitter.split_texts] *)
Fixpoint split_texts (self : t) (texts : list string)
  : outcome (list string) :=
  match texts with
  | [] => Returns []
  | text :: rest =>
      match split self text with
      | Raises e => Raises e
      | Returns cs =>
          match split_texts self rest with
          | Raises e => Raises e
          | Returns more => Returns (cs ++ more)
          end
      end
  end.

(** The program [CharacterTextSplitter(size, overlap).split(text)]. *)
Definition construct_and_split (size overlap : Z) (text : string)
  : outcome (list string) :=
  match __init__ size overlap with
  | Raises e => Raises e
  | Returns sp => split sp text
  end.

End CharacterTextSplitter.

Abbreviation chunk_size := CharacterTextSplitter.chunk_size.
Abbreviation chunk_overlap := CharacterTextSplitter.chunk_overlap.
Abbreviation MkSplitter := CharacterTextSplitter.MkSplitter.

(** ** Methods with effects

    A method runs on a state made of the object it is called on and the log
    of the calls it has made to the outside world, oldest first. A raised
    exception leaves the state as the method had it at the [raise]: what was
    assigned or appended before stays. *)

Inductive event : Type :=
| EvIsDir (path : string)                       (* os.path.isdir *)
| EvIsFile (path : string)                      (* os.path.isfile *)
| EvWalk (top : string)                         (* os.walk *)
| EvOpen (path : string) (encoding : string)    (* open(..., "r") and read *)
| EvHttpGet (url : string) (timeout : Z)        (* requests.get *)
| EvTranscriptFetch (video_id : string) (languages : option (list string))
| EvPrint (line : string).                      (* print *)

Record state (Obj : Type) : Type := St { self : Obj; log : list event }.
Arguments St {Obj} self log.
Arguments self {Obj} s.
Arguments log {Obj} s.

Definition M (Obj A : Type) : Type := state Obj -> outcome A * state Obj.

Module Eff.
Section Eff.
Context {Obj : Type}.

Definition ret {A} (a : A) : M Obj A := fun s => (Returns a, s).

Definition bind {A B} (m : M Obj A) (k : A -> M Obj B) : M Obj B :=
  fun s =>
    match m s with
    | (Returns a, s') => k a s'
    | (Raises e, s') => (Raises e, s')
    end.

Definition raise {A} (e : exn) : M Obj A := fun s => (Raises e, s).

(** [try: body  except Exception as e: handler(e)]: an exception that is
    not an instance of [Exception] goes through. *)
Definition try_except {A} (body : M Obj A) (handler : exn -> M Obj A)
  : M Obj A :=
  fun s =>
    match body s with
    | (Returns a, s') => (Returns a, s')
    | (Raises e, s') => if is_exception e then handler e s' else (Raises e, s')
    end.

(** [try: body  except: handler]: the bare [except] catches everything. *)
Definition try_bare_except {A} (body : M Obj A) (handler : M Obj A) : M Obj A :=
  fun s =>
    match body s with
    | (Returns a, s') => (Returns a, s')
    | (Raises _, s') => handler s'
    end.

Definition get_self : M Obj Obj := fun s => (Returns (self s), s).

Definition set_self (f : Obj -> Obj) : M Obj unit :=
  fun s => (Returns tt, St (f (self s)) (log s)).

(** Record one call to the outside world. *)
Definition emit (ev : event) : M Obj unit :=
  fun s => (Returns tt, St (self s) (log s ++ [ev])).

(** Lift the result an outside call produced. *)
Definition lift {A} (r : outcome A) : M Obj A := fun s => (r, s).

(** [for x in xs: body(x)] *)
Fixpoint for_each {A} (xs : list A) (body : A -> M Obj unit) : M Obj unit :=
  match xs with
  | [] => ret tt
  | x :: rest => bind (body x) (fun _ => for_each rest body)
  end.

End Eff.
End Eff.

Notation "x <- c1 ;; c2" := (Eff.bind c1 (fun x => c2))
  (at level 20, c1 at level 99, c2 at level 200, only parsing).
Notation "c1 ;; c2" := (Eff.bind c1 (fun _ => c2))
  (at level 100, c2 at level 200, only parsing, right associativity).

(** ** The file system *)

(** What a path names: a file, given by what [open(p, "r", encoding=enc)]
    followed by [read()] produces for each encoding, or a directory, given by
    its entries in the order the operating system lists them. Links and
    special files are left out. *)
#[local] Set Warnings "-register-all".
Inductive node : Type :=
| File (read : string -> outcome string)
| Dir (entries : list (string * node)).

(** The file system a loader runs against: what each path string names. *)
Definition filesystem : Type := string -> option node.

Module OsPath.

(** [os.path.isdir] *)
Definition isdir (fs : filesystem) (p : string) : bool :=
  match fs p with Some (Dir _) => true | _ => false end.

(** [os.path.isfile] *)
Definition isfile (fs : filesystem) (p : string) : bool :=
  match fs p with Some (File _) => true | _ => false end.

(** [os.path.join(a, b)] of [posixpath] for two components. *)
Definition join (a b : string) : string :=
  if PyStr.startswith b "/" then b
  else if String.eqb a "" || PyStr.endswith a "/" then a +:+ b
  else a +:+ "/" +:+ b.

End OsPath.

(** The names of the sub-directories and the non-directory entries of a
    listing, as [os.walk] separates them; a file keeps its reader, which is
    what opening [os.path.join(root, name)] gives. *)
Definition dirnames (entries : list (string * node)) : list string :=
  flat_map (fun e => match snd e with Dir _ => [fst e] | File _ => [] end) entries.

Definition filenames (entries : list (string * node))
  : list (string * (string -> outcome string)) :=
  flat_map (fun e => match snd e with File rd => [(fst e, rd)] | Dir _ => [] end)
           entries.

(** [os.walk(top)] (top-down, links not followed): the triples it yields, in
    order. A directory is yielded before its sub-directories, which are
    visited in listing order. *)
Fixpoint os_walk (top : string) (n : node)
  : list (string * list string * list (string * (string -> outcome string))) :=
  match n with
  | File _ => []
  | Dir entries =>
      (top, dirnames entries, filenames entries)
      :: (fix subdirs (es : list (string * node)) :=
            match es with
            | [] => []
            | (name, sub) :: rest =>
                os_walk (OsPath.join top name) sub ++ subdirs rest
            end) entries
  end.

(** ** TextFileLoader *)

Module TextFileLoader.

Record t : Type := MkLoader {
  documents : list string;
  path : string;
  encoding : string
}.

(** [TextFileLoader.__init__]; [encoding] defaults to ["utf-8"]. *)
Definition __init__ (path encoding : string) : t :=
  MkLoader [] path encoding.
Definition default_encoding : string := "utf-8".

(** [self.documents.append(doc)] *)
Definition append_document (doc : string) : M t unit :=
  Eff.set_self (fun l => MkLoader (documents l ++ [doc]) (path l) (encoding l)).

(** [with open(p, "r", encoding=enc) as f: ... f.read()] *)
Definition open_read (p enc : string) (target : option node)
  : M t string :=
  Eff.emit (EvOpen p enc) ;;
  match target with
  | Some (File rd) => Eff.lift (rd enc)
  | Some (Dir _) =>
      Eff.raise (Exn OSError ("[Errno 21] Is a directory: " +:+ PyStr.repr p))
  | None =>
      Eff.raise (Exn OSError ("[Errno 2] No such file or directory: "
                                +:+ PyStr.repr p))
  end.

(** [TextFileLoader.load_file] *)
Definition load_file (fs : filesystem) : M t unit :=
  l <- Eff.get_self ;;
  content <- open_read (path l) (encoding l) (fs (path l)) ;;
  append_document content.

(** The body of the inner loop of [load_directory], for one entry of
    [files]: a file with its name and what reading it gives. *)
Definition load_walked_file (root : string)
    (f : string * (string -> outcome string)) : M t unit :=
  let '(file, rd) := f in
  if PyStr.endswith file ".txt" then
    l <- Eff.get_self ;;
    content <- open_read (OsPath.join root file) (encoding l)
                         (Some (File rd)) ;;
    append_document content
  else Eff.ret tt.

(** The body of the outer loop, for one triple [(root, _, files)]. *)
Definition load_walked_dir
    (triple : string * list string * list (string * (string -> outcome string)))
  : M t unit :=
  let '(root, _, files) := triple in
  Eff.for_each files (load_walked_file root).

(** [TextFileLoader.load_directory] *)
Definition load_directory (fs : filesystem) : M t unit :=
  l <- Eff.get_self ;;
  Eff.emit (EvWalk (path l)) ;;
  Eff.for_each
    (match fs (path l) with Some n => os_walk (path l) n | None => [] end)
    load_walked_dir.

Definition invalid_path_msg : string :=
  "Provided path is neither a valid directory nor a .txt file.".

(** [TextFileLoader.load] *)
Definition load (fs : filesystem) : M t unit :=
  l <- Eff.get_self ;;
  Eff.emit (EvIsDir (path l)) ;;
  if OsPath.isdir fs (path l) then load_directory fs
  else
    Eff.emit (EvIsFile (path l)) ;;
    if OsPath.isfile fs (path l) && PyStr.endswith (path l) ".txt"
    then load_file fs
    else Eff.raise (Exn ValueError invalid_path_msg).

(** [TextFileLoader.load_documents]: the list returned is the loader's
    own [documents]. *)
Definition load_documents (fs : filesystem) : M t (list string) :=
  load fs ;;
  l <- Eff.get_self ;;
  Eff.ret (documents l).

End TextFileLoader.

(** ** Regular expressions of the identifier patterns

    Each of the three patterns of [_extract_video_id] is an alternation of
    literal strings followed by the group [([^&\n?#]+)], so a pattern is given
    by its list of literals. [re_search] is [re.search] on such a pattern,
    returning [match.group(1)]: the leftmost position where some literal
    occurs followed by at least one character of the class wins, the literals
    are tried in order there, and the greedy group takes every character up
    to the first excluded one. *)

Module Re.

(** The character class [[^&\n?#]]. *)
Definition in_class (c : ascii) : bool :=
  negb (Ascii.eqb c "&" || Ascii.eqb c PyStr.lf
        || Ascii.eqb c "?" || Ascii.eqb c "#")%char.

(** The longest prefix of [s] made of characters of the class. *)
Fixpoint span_class (s : string) : string :=
  match s with
  | String c rest => if in_class c then String c (span_class rest) else ""
  | EmptyString => ""
  end.

(** [s] without its prefix [lit], when it has it. *)
Fixpoint strip (lit s : string) : option string :=
  match lit, s with
  | EmptyString, _ => Some s
  | String a lit', String b s' => if Ascii.eqb a b then strip lit' s' else None
  | String _ _, EmptyString => None
  end.

(** One literal followed by the group, anchored at the start of [s]. *)
Definition match_literal (lit s : string) : option string :=
  match strip lit s with
  | Some rest =>
      match span_class rest with
      | EmptyString => None
      | g => Some g
      end
  | None => None
  end.

(** The alternation, anchored at the start of [s]. *)
Fixpoint match_here (literals : list string) (s : string) : option string :=
  match literals with
  | [] => None
  | lit :: others =>
      match match_literal lit s with
      | Some g => Some g
      | None => match_here others s
      end
  end.

Fixpoint re_search (literals : list string) (s : string) : option string :=
  match match_here literals s with
  | Some g => Some g
  | None =>
      match s with
      | String _ rest => re_search literals rest
      | EmptyString => None
      end
  end.

End Re.

(** ** The outside world of YouTubeLoader *)

(** A JSON value as [response.json()] decodes it, as far as the loader looks
    at it: an object of scalar fields, an array, or a scalar. *)
Inductive json_scalar : Type :=
| JNull
| JBool (b : bool)
| JInt (z : Z)
| JStr (s : string).

Inductive json : Type :=
| JObject (fields : gmap string json_scalar)
| JArray
| JScalar (v : json_scalar).

(** [str(v)], as an f-string renders a field. *)
Definition scalar_str (v : json_scalar) : string :=
  match v with
  | JNull => "None"
  | JBool true => "True"
  | JBool false => "False"
  | JInt z => pretty z
  | JStr s => s
  end.

(** [type(v).__name__] *)
Definition type_name (v : json) : string :=
  match v with
  | JObject _ => "dict"
  | JArray => "list"
  | JScalar JNull => "NoneType"
  | JScalar (JBool _) => "bool"
  | JScalar (JInt _) => "int"
  | JScalar (JStr _) => "str"
  end.

(** [d.get(key, default)]; on a value that is not a [dict] the attribute
    lookup raises. *)
Definition py_get (d : json) (key : string) (default : json_scalar)
  : outcome json_scalar :=
  match d with
  | JObject fields => Returns (from_option id default (fields !! key))
  | _ => Raises (Exn AttributeError
                     ("'" +:+ type_name d +:+ "' object has no attribute 'get'"))
  end.

(** A [requests.Response]: whether [raise_for_status()] raises, and what
    [json()] gives. *)
Record response : Type := MkResponse {
  raise_for_status : option exn;
  json_body : outcome json
}.

(** One segment of a fetched transcript; only its text is read. *)
Record snippet : Type := MkSnippet { text : string }.
Record fetched_transcript : Type := MkTranscript { snippets : list snippet }.

(** The network: [requests.get(url, timeout=t)] and
    [YouTubeTranscriptApi().fetch(video_id, languages=...)], where [None]
    is the call without [languages]. *)
Record network : Type := MkNetwork {
  http_get : string -> Z -> outcome response;
  transcript_fetch : string -> option (list string) -> outcome fetched_transcript
}.

(** ** YouTubeLoader *)

Module YouTubeLoader.

Record t : Type := MkLoader {
  url : string;
  include_metadata : bool;
  documents : list string;
  metadata : json;
  video_id : string
}.

(** The [patterns] of [_extract_video_id], in order:
    [(?:youtube\.com\/watch\?v=|youtu\.be\/|youtube\.com\/embed\/)([^&\n?#]+)],
    [youtube\.com\/v\/([^&\n?#]+)] and [youtube\.com\/embed\/([^&\n?#]+)]. *)
Definition patterns : list (list string) :=
  [ ["youtube.com/watch?v="; "youtu.be/"; "youtube.com/embed/"];
    ["youtube.com/v/"];
    ["youtube.com/embed/"] ].

(** The loop of [_extract_video_id] over a list of patterns. *)
Fixpoint first_group (ps : list (list string)) (url : string) : option string :=
  match ps with
  | [] => None
  | pattern :: rest =>
      match Re.re_search pattern url with
      | Some g => Some g
      | None => first_group rest url
      end
  end.

(** [YouTubeLoader._extract_video_id] *)
Definition _extract_video_id (url : string) : outcome string :=
  match first_group patterns url with
  | Some g => Returns g
  | None => Raises (Exn ValueError ("Could not extract video ID from URL: " +:+ url))
  end.

(** [YouTubeLoader.__init__]; [include_metadata] defaults to [True]. It
    calls nothing outside the object. *)
Definition __init__ (url : string) (include_metadata : bool) : outcome t :=
  match _extract_video_id url with
  | Returns vid => Returns (MkLoader url include_metadata [] (JObject ∅) vid)
  | Raises e => Raises e
  end.

(** The dictionary returned when the metadata request fails. *)
Definition placeholder_metadata : gmap string json_scalar :=
  <["title" := JStr "Unknown"]>
    (<["author_name" := JStr "Unknown"]>
       (<["provider_name" := JStr "YouTube"]> ∅)).

Definition oembed_url (url : string) : string :=
  "https://www.youtube.com/oembed?url=" +:+ url +:+ "&format=json".

(** [YouTubeLoader._get_video_metadata] *)
Definition _get_video_metadata (net : network) : M t json :=
  Eff.try_except
    (l <- Eff.get_self ;;
     Eff.emit (EvHttpGet (oembed_url (url l)) 10) ;;
     resp <- Eff.lift (http_get net (oembed_url (url l)) 10) ;;
     match raise_for_status resp with
     | Some e => Eff.raise e
     | None => Eff.lift (json_body resp)
     end)
    (fun e =>
       Eff.emit (EvPrint ("Warning: Could not fetch video metadata: " +:+ exn_str e)) ;;
       Eff.ret (JObject placeholder_metadata)).

(** [api.fetch(video_id, languages=...)] *)
Definition fetch (net : network) (vid : string) (languages : option (list string))
  : M t fetched_transcript :=
  Eff.emit (EvTranscriptFetch vid languages) ;;
  Eff.lift (transcript_fetch net vid languages).

(** [YouTubeLoader._get_transcript] *)
Definition _get_transcript (net : network) : M t string :=
  Eff.try_except
    (l <- Eff.get_self ;;
     transcript_data <-
       Eff.try_bare_except (fetch net (video_id l) (Some ["en"]))
                           (fetch net (video_id l) None) ;;
     Eff.ret (PyStr.join " " (map text (snippets transcript_data))))
    (fun e =>
       l <- Eff.get_self ;;
       Eff.raise (Exn ValueError
                      ("Could not retrieve transcript for video "
                         +:+ video_id l +:+ ": " +:+ exn_str e))).

(** The f-string of [load]. *)
Definition format_document (title author vid url transcript : string) : string :=
  "Title: " +:+ title +:+ PyStr.nl
  +:+ "Author: " +:+ author +:+ PyStr.nl
  +:+ "Video ID: " +:+ vid +:+ PyStr.nl
  +:+ "URL: " +:+ url +:+ PyStr.nl
  +:+ PyStr.nl
  +:+ "Transcript:" +:+ PyStr.nl
  +:+ transcript.

Definition set_metadata (m : json) : M t unit :=
  Eff.set_self (fun l =>
    MkLoader (url l) (include_metadata l) (documents l) m (video_id l)).

Definition append_document (doc : string) : M t unit :=
  Eff.set_self (fun l =>
    MkLoader (url l) (include_metadata l) (documents l ++ [doc])
             (metadata l) (video_id l)).

(** [YouTubeLoader.load] *)
Definition load (net : network) : M t unit :=
  Eff.try_except
    (transcript <- _get_transcript net ;;
     l <- Eff.get_self ;;
     document <-
       (if include_metadata l then
          m <- _get_video_metadata net ;;
          set_metadata m ;;
          title <- Eff.lift (py_get m "title" (JStr "Unknown")) ;;
          author <- Eff.lift (py_get m "author_name" (JStr "Unknown")) ;;
          Eff.ret (format_document (scalar_str title) (scalar_str author)
                                   (video_id l) (url l) transcript)
        else Eff.ret transcript) ;;
     append_document document)
    (fun e =>
       Eff.raise (Exn ValueError ("Failed to load YouTube video: " +:+ exn_str e))).

(** [YouTubeLoader.load_documents] *)
Definition load_documents (net : network) : M t (list string) :=
  load net ;;
  l <- Eff.get_self ;;
  Eff.ret (documents l).

(** [YouTubeLoader.get_metadata] *)
Definition get_metadata : M t json :=
  l <- Eff.get_self ;;
  Eff.ret (metadata l).

(** The program [YouTubeLoader(url, include_metadata).load_documents()],
    started with the log [log0]: the outcome, the loader if one was
    constructed, and the log afterwards. *)
Definition construct_and_load (net : network) (url : string) (include_metadata : bool)
    (log0 : list event)
    : outcome (list string) * option t * list event :=
  match __init__ url include_metadata with
  | Raises e => (Raises e, None, log0)
  | Returns l =>
      let '(r, s) := load_documents net (St l log0) in
      (r, Some (self s), log s)
  end.

End YouTubeLoader.

(** ** Vocabulary of the design document for the splitter *)

Module SplitSpec.

(** A valid configuration: [chunk_size > 0] and
    [0 <= chunk_overlap < chunk_size]. *)
Definition valid (sp : CharacterTextSplitter.t) : Prop :=
  0 < chunk_size sp /\ 0 <= chunk_overlap sp < chunk_size sp.

Definition stride (sp : CharacterTextSplitter.t) : Z :=
  chunk_size sp - chunk_overlap sp.

(** The start offsets [i = from, from + stride, ...] taken while [i < n];
    [fuel] bounds the number of steps. *)
Fixpoint offsets_from (fuel : nat) (from stride n : Z) : list Z :=
  match fuel with
  | O => []
  | S fuel' =>
      if from <? n then from :: offsets_from fuel' (from + stride) stride n
      else []
  end.

(** The offsets [0, stride, 2*stride, ...] below [n]; with a stride of at
    least one, [n] steps are enough. *)
Definition window_offsets (stride n : Z) : list Z :=
  offsets_from (Z.to_nat n) 0 stride n.

(** Chunk [j] is the first whose start offset is at least [n - stride]. *)
Definition first_reaching (stride n : Z) (j : nat) : Prop :=
  n - stride <= Z.of_nat j * stride
  /\ forall k : nat, (k < j)%nat -> Z.of_nat k * stride < n - stride.

(** The first and the last [k] characters of a string. *)
Definition first_chars (k : nat) (s : string) : string := substring 0 k s.
Definition last_chars (k : nat) (s : string) : string :=
  substring (String.length s - k) k s.

End SplitSpec.

(** ** Vocabulary of the design document for the loaders *)

Module LoaderSpec.

(** The ways the metadata request of [_get_video_metadata] can fail: the
    transport raises, [raise_for_status] raises, or the body does not
    decode. [e] is the exception raised. *)
Inductive metadata_fetch_fails (net : network) (url : string) : exn -> Prop :=
| network_error e :
    http_get net (YouTubeLoader.oembed_url url) 10 = Raises e ->
    metadata_fetch_fails net url e
| bad_status r e :
    http_get net (YouTubeLoader.oembed_url url) 10 = Returns r ->
    raise_for_status r = Some e ->
    metadata_fetch_fails net url e
| malformed_response r e :
    http_get net (YouTubeLoader.oembed_url url) 10 = Returns r ->
    raise_for_status r = None ->
    json_body r = Raises e ->
    metadata_fetch_fails net url e.

(** What the preferred-language request and, if it raises, the request
    for any language give. *)
Definition fetched (net : network) (vid : string) : outcome fetched_transcript :=
  match transcript_fetch net vid (Some ["en"]) with
  | Returns d => Returns d
  | Raises _ => transcript_fetch net vid None
  end.

(** The transcript body: the segment texts joined by single spaces. *)
Definition transcript_body (d : fetched_transcript) : string :=
  PyStr.join " " (map text (snippets d)).


Definition is_transcript_call (ev : event) : bool :=
  match ev with EvTranscriptFetch _ _ => true | _ => false end.

Definition is_metadata_call (ev : event) : bool :=
  match ev with EvHttpGet _ _ => true | _ => false end.

(** Some event satisfying [P] is logged before some event satisfying [Q]. *)
Fixpoint occurs_before (P Q : event -> bool) (evs : list event) : bool :=
  match evs with
  | [] => false
  | ev :: rest => (P ev && existsb Q rest) || occurs_before P Q rest
  end.

(** The transcript requests a load makes: the preferred language, and any
    language when that one raised. *)
Definition transcript_calls (net : network) (vid : string) : list event :=
  match transcript_fetch net vid (Some ["en"]) with
  | Returns _ => [EvTranscriptFetch vid (Some ["en"])]
  | Raises _ => [EvTranscriptFetch vid (Some ["en"]); EvTranscriptFetch vid None]
  end.

(** A file-system event that opens or lists something, as opposed to the
    checks of what a path names. *)
Definition reads_content (ev : event) : bool :=
  match ev with EvOpen _ _ | EvWalk _ => true | _ => false end.

(** The files a directory tree contains, at any depth, with their names:
    those of the directory itself, then those of each sub-directory in
    listing order. *)
Fixpoint contained_files (n : node) : list (string * (string -> outcome string)) :=
  match n with
  | File _ => []
  | Dir entries =>
      filenames entries
      ++ (fix below (es : list (string * node)) :=
            match es with
            | [] => []
            | (_, sub) :: rest => contained_files sub ++ below rest
            end) entries
  end.

(** [name] is a file with reader [rd] somewhere in the tree [n]. *)
Inductive contains : node -> string -> (string -> outcome string) -> Prop :=
| contains_here entries name rd :
    In (name, File rd) entries -> contains (Dir entries) name rd
| contains_below entries d sub name rd :
    In (d, sub) entries -> contains sub name rd -> contains (Dir entries) name rd.

(** A file whose name ends in [".txt"]. *)
Definition is_text_file (f : string * (string -> outcome string)) : Prop :=
  PyStr.endswith (fst f) ".txt" = true.

(** The contained files whose name ends in [".txt"]. *)
Definition text_files (n : node) : list (string * (string -> outcome string)) :=
  filter is_text_file (contained_files n).

End LoaderSpec.

(** What [except Exception as e: raise ValueError(msg(e))] lets out when
    its body raised [e]. *)
Definition reraised (msg : exn -> string) (e : exn) : exn :=
  if is_exception e then Exn ValueError (msg e) else e.

(** The exceptions that come out of [_get_transcript] and of [load] when
    [e] was raised inside. *)
Definition transcript_error (vid : string) (e : exn) : exn :=
  reraised (fun e => "Could not retrieve transcript for video "
                       +:+ vid +:+ ": " +:+ exn_str e) e.
Definition load_error (e : exn) : exn :=
  reraised (fun e => "Failed to load YouTube video: " +:+ exn_str e) e.

(** What the body of the [try] of [_get_video_metadata] gives. *)
Definition metadata_response (net : network) (u : string) : outcome json :=
  match http_get net (YouTubeLoader.oembed_url u) 10 with
  | Raises e => Raises e
  | Returns r =>
      match raise_for_status r with
      | Some e => Raises e
      | None => json_body r
      end
  end.

(** What one [load] does, whatever the documents, metadata and log it
    starts from: its outcome, the documents it appends, the value it assigns
    to [metadata] (if it does) and the events that follow the transcript
    requests. *)
Definition assemble_result (u vid : string) (d : fetched_transcript) (m : json)
    (mlog : list event)
  : outcome unit * list string * option json * list event :=
  match m with
  | JObject fields =>
      (Returns tt,
       [YouTubeLoader.format_document
          (scalar_str (from_option id (JStr "Unknown") (fields !! "title")))
          (scalar_str (from_option id (JStr "Unknown") (fields !! "author_name")))
          vid u (LoaderSpec.transcript_body d)],
       Some m, mlog)
  | _ =>
      (Raises (Exn ValueError
                   ("Failed to load YouTube video: "
                      +:+ ("'" +:+ type_name m
                             +:+ "' object has no attribute 'get'"))),
       [], Some m, mlog)
  end.

Definition load_result (net : network) (u : string) (incl : bool) (vid : string)
  : outcome unit * list string * option json * list event :=
  match LoaderSpec.fetched net vid with
  | Raises e => (Raises (load_error (transcript_error vid e)), [], None, [])
  | Returns d =>
      if incl then
        match metadata_response net u with
        | Returns m =>
            assemble_result u vid d m [EvHttpGet (YouTubeLoader.oembed_url u) 10]
        | Raises e =>
            if is_exception e then
              assemble_result u vid d (JObject YouTubeLoader.placeholder_metadata)
                [EvHttpGet (YouTubeLoader.oembed_url u) 10;
                 EvPrint ("Warning: Could not fetch video metadata: "
                            +:+ exn_str e)]
            else (Raises e, [], None, [EvHttpGet (YouTubeLoader.oembed_url u) 10])
        end
      else (Returns tt, [LoaderSpec.transcript_body d], None, [])
  end.

(** A step of a [TextFileLoader] method that only appends: on a loader with
    path [p] and encoding [enc] its outcome, the documents it appends and the
    calls it makes are the same whatever the documents already held and the
    calls already logged. *)
Definition appends_only {A : Type} (p enc : string)
    (m : M TextFileLoader.t A) : Prop :=
  exists (r : outcome A) (new : list string) (evs : list event),
    forall (docs : list string) (lg : list event),
      m (St (TextFileLoader.MkLoader docs p enc) lg)
      = (r, St (TextFileLoader.MkLoader (docs ++ new) p enc) (lg ++ evs)).

(** ** The script at the end of the module *)

(** [l[i]] on a list: a negative index counts from the end, and an index out
    of range raises [IndexError]. *)
Definition py_index {A : Type} (l : list A) (i : Z) : outcome A :=
  let n := Z.of_nat (length l) in
  let j := if i <? 0 then i + n else i in
  match (if (0 <=? j) && (j <? n) then l !! Z.to_nat j else None) with
  | Some x => Returns x
  | None => Raises (Exn (OtherException "IndexError") "list index out of range")
  end.

Module Main.

Definition corpus_path : string := "data/KingLear.txt".
Definition separator : string := "--------".

(** The statements under [if __name__ == "__main__":], run on the loader
    that its first statement constructs; [print] of an [int] prints its
    decimal digits. *)
Definition main (fs : filesystem) : M TextFileLoader.t unit :=
  TextFileLoader.load fs ;;
  splitter <- Eff.lift (CharacterTextSplitter.__init__
                          CharacterTextSplitter.default_chunk_size
                          CharacterTextSplitter.default_chunk_overlap) ;;
  loader <- Eff.get_self ;;
  chunks <- Eff.lift (CharacterTextSplitter.split_texts
                        splitter (TextFileLoader.documents loader)) ;;
  Eff.emit (EvPrint (pretty (length chunks))) ;;
  c <- Eff.lift (py_index chunks 0) ;;
  Eff.emit (EvPrint c) ;;
  Eff.emit (EvPrint separator) ;;
  c <- Eff.lift (py_index chunks 1) ;;
  Eff.emit (EvPrint c) ;;
  Eff.emit (EvPrint separator) ;;
  c <- Eff.lift (py_index chunks (-2)) ;;
  Eff.emit (EvPrint c) ;;
  Eff.emit (EvPrint separator) ;;
  c <- Eff.lift (py_index chunks (-1)) ;;
  Eff.emit (EvPrint c).

(** The script from its first statement, [loader = TextFileLoader(...)]. *)
Definition run (fs : filesystem) : outcome unit * state TextFileLoader.t :=
  main fs (St (TextFileLoader.__init__ corpus_path TextFileLoader.default_encoding) []).

End Main.

(** ** Further vocabulary for the properties *)

(** Reading files one after the other until one raises: the contents read
    so far and the exception, if any. *)
Fixpoint read_all (enc : string) (files : list (string * (string -> outcome string)))
  : list string * option exn :=
  match files with
  | [] => ([], None)
  | f :: rest =>
      match snd f enc with
      | Raises e => ([], Some e)
      | Returns c =>
          let '(cs, r) := read_all enc rest in (c :: cs, r)
      end
  end.

(** What one [TextFileLoader.load] does on the path [p] with the encoding
    [enc], whatever the documents and the log it starts from: its outcome and
    the documents it appends. *)
Definition text_load_result (fs : filesystem) (p enc : string)
  : outcome unit * list string :=
  match fs p with
  | Some (Dir entries) =>
      let '(cs, r) := read_all enc (LoaderSpec.text_files (Dir entries)) in
      (match r with None => Returns tt | Some e => Raises e end, cs)
  | Some (File rd) =>
      if PyStr.endswith p ".txt" then
        match rd enc with
        | Returns c => (Returns tt, [c])
        | Raises e => (Raises e, [])
        end
      else (Raises (Exn ValueError TextFileLoader.invalid_path_msg), [])
  | None => (Raises (Exn ValueError TextFileLoader.invalid_path_msg), [])
  end.

(** Every character of [s] is in the class of the identifier group. *)
Definition all_in_class (s : string) : Prop :=
  forall (i : nat) (c : ascii), get i s = Some c -> Re.in_class c = true.

(** [s] is empty or starts with a character outside the class. *)
Definition stops_at_delimiter (s : string) : Prop :=
  match s with
  | EmptyString => True
  | String c _ => Re.in_class c = false
  end.

(** A computation that, run on an object satisfying [I], makes only calls
    to the outside world that satisfy [Q] and leaves an object satisfying
    [I]. *)
Definition emits_only {Obj A : Type} (I : Obj -> Prop) (Q : event -> Prop)
    (m : M Obj A) : Prop :=
  forall s : state Obj,
    I (self s) ->
    exists evs : list event,
      log (snd (m s)) = log s ++ evs /\ Forall Q evs /\ I (self (snd (m s))).

(** The calls a [TextFileLoader] may make: checks of what a path names, a
    directory walk, and opening a path that ends in [".txt"]. *)
Definition text_file_access (ev : event) : Prop :=
  match ev with
  | EvIsDir _ | EvIsFile _ | EvWalk _ => True
  | EvOpen q _ => PyStr.endswith q ".txt" = true
  | _ => False
  end.

(** * Properties *)

(** ** Strings *)

Lemma get_substring (s : string) (n m p : nat) :
  get p (substring n m s) = if (p <? m)%nat then get (p + n) s else None.
Proof.
  destruct (Nat.ltb_spec p m).
  - now apply substring_correct1.
  - now apply substring_correct2.
Qed.

Lemma get_None_iff (s : string) (p : nat) :
  get p s = None <-> (String.length s <= p)%nat.
Proof.
  revert p; induction s as [|c s IH]; intros p; simpl.
  - split; [lia | reflexivity].
  - destruct p as [|p]; simpl.
    + split; [discriminate | lia].
    + rewrite IH. lia.
Qed.

Lemma substring_clip (s : string) (n m : nat) :
  substring n m s = substring n (Nat.min m (String.length s - n)) s.
Proof.
  apply get_correct; intros p. rewrite !get_substring.
  destruct (Nat.ltb_spec p m), (Nat.ltb_spec p (Nat.min m (String.length s - n)));
    try reflexivity; try lia.
  apply get_None_iff. lia.
Qed.

Lemma length_substring (s : string) (n m : nat) :
  String.length (substring n m s) = Nat.min m (String.length s - n).
Proof.
  revert n m; induction s as [|c s IH]; intros n m; simpl.
  - destruct n, m; reflexivity.
  - destruct n as [|n]; simpl.
    + destruct m as [|m]; simpl; [reflexivity | rewrite IH; lia].
    + apply IH.
Qed.

Lemma substring_substring (s : string) (n m a b : nat) :
  substring a b (substring n m s) = substring (n + a) (Nat.min b (m - a)) s.
Proof.
  apply get_correct; intros p. rewrite !get_substring.
  destruct (Nat.ltb_spec p b), (Nat.ltb_spec (p + a) m),
    (Nat.ltb_spec p (Nat.min b (m - a))); try reflexivity; try lia.
  f_equal; lia.
Qed.

Lemma substring_empty_length (s : string) (n : nat) : substring n 0 s = "".
Proof.
  apply get_correct; intros p. rewrite get_substring. now destruct p.
Qed.

(** For a start inside the text and a positive width, the slice is the
    clipped substring. *)
Lemma slice_window (text : string) (i w : Z) :
  0 <= i -> 0 < w ->
  PyStr.slice text i (i + w) = substring (Z.to_nat i) (Z.to_nat w) text.
Proof.
  intros Hi Hw. unfold PyStr.slice, PyStr.adjust, PyStr.len.
  set (n := String.length text).
  destruct (Z.ltb_spec i 0); [lia|].
  destruct (Z.ltb_spec (i + w) 0); [lia|].
  destruct (Z.ltb_spec (Z.min i (Z.of_nat n)) (Z.min (i + w) (Z.of_nat n))) as [Hlt|Hge].
  - rewrite (substring_clip text (Z.to_nat i) (Z.to_nat w)). fold n.
    f_equal; lia.
  - rewrite (substring_clip text (Z.to_nat i) (Z.to_nat w)). fold n.
    replace (Nat.min (Z.to_nat w) (n - Z.to_nat i)) with 0%nat by lia.
    now rewrite substring_empty_length.
Qed.

(** ** The range of the split loop *)

Lemma range_length_bounds (n s : Z) :
  0 <= n -> 0 < s ->
  0 <= range_length 0 n s
  /\ (range_length 0 n s - 1) * s < n <= range_length 0 n s * s.
Proof.
  intros Hn Hs. unfold range_length.
  destruct (Z.ltb_spec 0 s); [|lia].
  destruct (Z.ltb_spec 0 n); [|lia].
  replace (n - 0 - 1) with (n - 1) by lia.
  pose proof (Z.div_mod (n - 1) s ltac:(lia)) as Hdm.
  pose proof (Z.mod_pos_bound (n - 1) s Hs) as Hmod.
  pose proof (Z.div_pos (n - 1) s ltac:(lia) Hs) as Hdiv.
  nia.
Qed.

Lemma offsets_from_closed (s n : Z) (N fuel : nat) (from : Z) :
  0 < s ->
  from + (Z.of_nat N - 1) * s < n <= from + Z.of_nat N * s ->
  (N <= fuel)%nat ->
  SplitSpec.offsets_from fuel from s n
  = map (fun k => from + Z.of_nat k * s) (seq 0 N).
Proof.
  intros Hs. revert fuel from.
  induction N as [|N IH]; intros fuel from Hb Hf.
  - destruct fuel; simpl; [reflexivity|].
    destruct (Z.ltb_spec from n); [lia | reflexivity].
  - destruct fuel as [|fuel]; [lia|]. simpl.
    destruct (Z.ltb_spec from n); [|nia].
    f_equal; [lia|].
    rewrite (IH fuel (from + s)) by lia.
    rewrite <- seq_shift, map_map.
    apply map_ext; intros k. lia.
Qed.

Lemma split_valid_closed (sp : CharacterTextSplitter.t) (text : string) :
  SplitSpec.valid sp ->
  let s := SplitSpec.stride sp in
  let n := PyStr.len text in
  let N := Z.to_nat (range_length 0 n s) in
  CharacterTextSplitter.split sp text
  = Returns (map (fun i => PyStr.slice text i (i + chunk_size sp))
                 (map (fun k => Z.of_nat k * s) (seq 0 N)))
  /\ SplitSpec.window_offsets s n = map (fun k => Z.of_nat k * s) (seq 0 N)
  /\ (Z.of_nat N - 1) * s < n <= Z.of_nat N * s.
Proof.
  intros [Hsize [Hov Hlt]] s n N.
  assert (Hs : 0 < s) by (unfold s, SplitSpec.stride; lia).
  assert (Hn : 0 <= n) by (unfold n, PyStr.len; lia).
  destruct (range_length_bounds n s Hn Hs) as [HN0 HN].
  assert (HNb : (Z.of_nat N - 1) * s < n <= Z.of_nat N * s)
    by (unfold N; rewrite Z2Nat.id by lia; exact HN).
  split; [|split; [|exact HNb]].
  - unfold CharacterTextSplitter.split, py_range.
    change (chunk_size sp - chunk_overlap sp) with s. fold n.
    destruct (Z.eqb_spec s 0); [lia|]. fold N.
    do 2 f_equal.
  - unfold SplitSpec.window_offsets.
    rewrite (offsets_from_closed s n N (Z.to_nat n) 0 Hs) by nia.
    apply map_ext; intros k. lia.
Qed.

(** C1. For a valid configuration, [split] returns the slices
    [text[i : i + chunk_size]] at the offsets [i = 0, stride, 2*stride, ...]
    taken while [i < len(text)], in that order. The empty text gives no
    chunk; for a non-empty text the number [N] of chunks is the only one for
    which chunk [N-1] is the first to start at or after [len(text) - stride]. *)
Theorem split_sliding_window (sp : CharacterTextSplitter.t) (text : string) :
  SplitSpec.valid sp ->
  let s := SplitSpec.stride sp in
  let n := PyStr.len text in
  exists (chunks : list string) (N : nat),
    CharacterTextSplitter.split sp text = Returns chunks
    /\ chunks = map (fun i => PyStr.slice text i (i + chunk_size sp))
                    (SplitSpec.window_offsets s n)
    /\ SplitSpec.window_offsets s n = map (fun k => Z.of_nat k * s) (seq 0 N)
    /\ length chunks = N
    /\ (text = "" -> chunks = [])
    /\ (text <> "" ->
        (1 <= N)%nat
        /\ SplitSpec.first_reaching s n (N - 1)
        /\ forall M : nat,
            (1 <= M)%nat -> SplitSpec.first_reaching s n (M - 1) -> M = N).
Proof.
  intros Hv s n.
  destruct (split_valid_closed sp text Hv) as (Hsplit & Hoff & HN).
  fold s n in Hsplit, Hoff, HN.
  set (N := Z.to_nat (range_length 0 n s)) in *.
  assert (Hs : 0 < s) by (destruct Hv; unfold s, SplitSpec.stride; lia).
  exists (map (fun i => PyStr.slice text i (i + chunk_size sp))
              (map (fun k => Z.of_nat k * s) (seq 0 N))), N.
  repeat split.
  - exact Hsplit.
  - now rewrite Hoff.
  - exact Hoff.
  - now rewrite !length_map, length_seq.
  - intros ->. unfold n, PyStr.len in HN. simpl in HN.
    assert (N = 0%nat) as -> by nia. reflexivity.
  - assert (0 < n) by (unfold n, PyStr.len; destruct text; simpl; [congruence | lia]).
    nia.
  - nia.
  - intros k Hk. nia.
  - intros M HM [Hreach Hfirst].
    assert (0 < n) by (unfold n, PyStr.len; destruct text; simpl; [congruence | lia]).
    assert (1 <= N)%nat by nia.
    destruct (Nat.lt_trichotomy M N) as [Hlt | [Heq | Hgt]]; [|exact Heq|].
    + exfalso. nia.
    + exfalso. specialize (Hfirst (N - 1)%nat ltac:(lia)). nia.
Qed.

Lemma split_sliding_window_witness :
  exists (chunks : list string) (N : nat),
    CharacterTextSplitter.split (MkSplitter 4 1) "abcdefghij" = Returns chunks
    /\ chunks = map (fun i => PyStr.slice "abcdefghij" i (i + 4))
                    (SplitSpec.window_offsets 3 10)
    /\ SplitSpec.window_offsets 3 10 = map (fun k => Z.of_nat k * 3) (seq 0 N)
    /\ length chunks = N
    /\ ("abcdefghij" = "" -> chunks = [])
    /\ ("abcdefghij" <> "" ->
        (1 <= N)%nat
        /\ SplitSpec.first_reaching 3 10 (N - 1)
        /\ forall M : nat,
            (1 <= M)%nat -> SplitSpec.first_reaching 3 10 (M - 1) -> M = N).
Proof.
  apply (split_sliding_window (MkSplitter 4 1) "abcdefghij").
  unfold SplitSpec.valid; simpl; lia.
Defined.

Lemma split_lookup (sp : CharacterTextSplitter.t) (text : string)
    (chunks : list string) (k : nat) (c : string) :
  SplitSpec.valid sp ->
  CharacterTextSplitter.split sp text = Returns chunks ->
  chunks !! k = Some c ->
  c = substring (Z.to_nat (Z.of_nat k * SplitSpec.stride sp))
                (Z.to_nat (chunk_size sp)) text
  /\ Z.of_nat k * SplitSpec.stride sp < PyStr.len text.
Proof.
  intros Hv Hsplit Hk.
  destruct (split_valid_closed sp text Hv) as (Hclosed & _ & HN).
  rewrite Hclosed in Hsplit. injection Hsplit as <-.
  rewrite map_map in Hk.
  change (map ?f ?l) with (f <$> l) in Hk.
  rewrite list_lookup_fmap in Hk.
  destruct (seq _ _ !! k) as [k'|] eqn:Hseq; [|discriminate].
  apply lookup_seq in Hseq as [-> Hlt]. simpl in Hk. injection Hk as <-.
  assert (Hs : 0 < SplitSpec.stride sp)
    by (destruct Hv; unfold SplitSpec.stride; lia).
  destruct Hv as [Hsize _].
  split; [apply slice_window; nia | nia].
Qed.

(** C4. For a valid configuration, when chunk [i+1] is not the last one and
    the text is long enough for chunk [i] to be a whole window
    ([i*stride + chunk_size <= len(text)]), the last [chunk_overlap]
    characters of chunk [i] are the first [chunk_overlap] characters of
    chunk [i+1]; that shared piece has exactly [chunk_overlap] characters and
    is the part of the text where the two windows meet. *)
Theorem consecutive_chunks_share_overlap (sp : CharacterTextSplitter.t)
    (text : string) (chunks : list string) (i : nat) (ci cj : string) :
  SplitSpec.valid sp ->
  CharacterTextSplitter.split sp text = Returns chunks ->
  chunks !! i = Some ci ->
  chunks !! S i = Some cj ->
  (S (S i) < length chunks)%nat ->
  Z.of_nat i * SplitSpec.stride sp + chunk_size sp <= PyStr.len text ->
  let ov := Z.to_nat (chunk_overlap sp) in
  SplitSpec.last_chars ov ci = SplitSpec.first_chars ov cj
  /\ String.length (SplitSpec.last_chars ov ci) = ov
  /\ SplitSpec.last_chars ov ci
     = PyStr.slice text (Z.of_nat (S i) * SplitSpec.stride sp)
                        (Z.of_nat i * SplitSpec.stride sp + chunk_size sp)
  /\ Z.of_nat (String.length ci) = chunk_size sp.
Proof.
  intros Hv Hsplit Hi Hj Hlast Hlong ov.
  destruct (split_lookup sp text chunks i ci Hv Hsplit Hi) as [-> Hi_lt].
  destruct (split_lookup sp text chunks (S i) cj Hv Hsplit Hj) as [-> Hj_lt].
  destruct Hv as [Hsize [Hov Hlt]].
  set (s := SplitSpec.stride sp) in *.
  assert (Hs : s = chunk_size sp - chunk_overlap sp) by reflexivity.
  unfold PyStr.len in *.
  unfold SplitSpec.last_chars, SplitSpec.first_chars.
  rewrite length_substring, !substring_substring.
  assert (Hshared :
    substring
      (Z.to_nat (Z.of_nat i * s)
       + (Nat.min (Z.to_nat (chunk_size sp))
                  (String.length text - Z.to_nat (Z.of_nat i * s)) - ov))
      (Nat.min ov
         (Z.to_nat (chunk_size sp)
          - (Nat.min (Z.to_nat (chunk_size sp))
                     (String.length text - Z.to_nat (Z.of_nat i * s)) - ov)))
      text
    = substring (Z.to_nat (Z.of_nat (S i) * s)) ov text).
  { f_equal; unfold ov; nia. }
  rewrite Hshared.
  repeat split.
  - f_equal; unfold ov; nia.
  - rewrite length_substring. unfold ov. nia.
  - unfold PyStr.slice, PyStr.adjust, PyStr.len.
    destruct (Z.ltb_spec (Z.of_nat (S i) * s) 0); [nia|].
    destruct (Z.ltb_spec (Z.of_nat i * s + chunk_size sp) 0); [nia|].
    destruct (Z.ltb_spec
                (Z.min (Z.of_nat (S i) * s) (Z.of_nat (String.length text)))
                (Z.min (Z.of_nat i * s + chunk_size sp)
                       (Z.of_nat (String.length text)))).
    + f_equal; unfold ov; nia.
    + replace ov with 0%nat by (unfold ov; nia).
      apply substring_empty_length.
  - nia.
Qed.

Lemma consecutive_chunks_share_overlap_witness :
  SplitSpec.last_chars 1 "abcd" = SplitSpec.first_chars 1 "defg"
  /\ String.length (SplitSpec.last_chars 1 "abcd") = 1%nat
  /\ SplitSpec.last_chars 1 "abcd" = PyStr.slice "abcdefghij" 3 4
  /\ Z.of_nat (String.length "abcd") = 4.
Proof.
  apply (consecutive_chunks_share_overlap (MkSplitter 4 1) "abcdefghij"
           ["abcd"; "defg"; "ghij"; "j"] 0 "abcd" "defg").
  - unfold SplitSpec.valid; simpl; lia.
  - reflexivity.
  - reflexivity.
  - reflexivity.
  - simpl; lia.
  - vm_compute; discriminate.
Defined.

(** The proviso of C4 on the length of the text is needed when the overlap
    exceeds the stride: here chunk 1 is not the last one, yet chunk 0 is cut
    short by the end of the text and its last nine characters are not the
    first nine of chunk 1. *)
Example short_text_breaks_overlap :
  let sp := MkSplitter 10 9 in
  CharacterTextSplitter.split sp "abcde" = Returns ["abcde"; "bcde"; "cde"; "de"; "e"]
  /\ SplitSpec.last_chars 9 "abcde" <> SplitSpec.first_chars 9 "bcde".
Proof. split; [reflexivity | vm_compute; discriminate]. Qed.

(** When the overlap is at most the stride the proviso holds by itself. *)
Lemma whole_window_when_overlap_small (sp : CharacterTextSplitter.t)
    (text : string) (chunks : list string) (i : nat) :
  SplitSpec.valid sp ->
  chunk_overlap sp <= SplitSpec.stride sp ->
  CharacterTextSplitter.split sp text = Returns chunks ->
  (S (S i) < length chunks)%nat ->
  Z.of_nat i * SplitSpec.stride sp + chunk_size sp <= PyStr.len text.
Proof.
  intros Hv Hsmall Hsplit Hlast.
  destruct (lookup_lt_is_Some_2 chunks (S (S i)) Hlast) as [c Hc].
  destruct (split_lookup sp text chunks (S (S i)) c Hv Hsplit Hc) as [_ Hlt].
  unfold SplitSpec.stride in *. nia.
Qed.

(** ** Construction of the splitter *)

(** C5. Whenever [chunk_overlap >= chunk_size], constructing the splitter
    raises (the [AssertionError] of [__init__], with its message), so the
    program that constructs a splitter and then splits raises the same error
    without running [split]; and every splitter the constructor does return
    has [chunk_overlap < chunk_size]. *)
Theorem init_rejects_large_overlap (size overlap : Z) :
  overlap >= size ->
  CharacterTextSplitter.__init__ size overlap
  = Raises (Exn AssertionError CharacterTextSplitter.assert_msg)
  /\ (forall text : string,
        CharacterTextSplitter.construct_and_split size overlap text
        = Raises (Exn AssertionError CharacterTextSplitter.assert_msg))
  /\ (forall (size' overlap' : Z) (sp : CharacterTextSplitter.t),
        CharacterTextSplitter.__init__ size' overlap' = Returns sp ->
        chunk_size sp = size' /\ chunk_overlap sp = overlap'
        /\ chunk_overlap sp < chunk_size sp).
Proof.
  intros Hge.
  assert (Hinit : CharacterTextSplitter.__init__ size overlap
                  = Raises (Exn AssertionError CharacterTextSplitter.assert_msg)).
  { unfold CharacterTextSplitter.__init__.
    destruct (Z.ltb_spec overlap size); [lia | reflexivity]. }
  split; [exact Hinit | split].
  - intros text. unfold CharacterTextSplitter.construct_and_split. now rewrite Hinit.
  - intros size' overlap' sp. unfold CharacterTextSplitter.__init__.
    destruct (Z.ltb_spec overlap' size'); [|discriminate].
    intros [= <-]. simpl. lia.
Qed.

Lemma init_rejects_large_overlap_witness :
  CharacterTextSplitter.__init__ 50 200
  = Raises (Exn AssertionError CharacterTextSplitter.assert_msg)
  /\ (forall text : string,
        CharacterTextSplitter.construct_and_split 50 200 text
        = Raises (Exn AssertionError CharacterTextSplitter.assert_msg))
  /\ (forall (size' overlap' : Z) (sp : CharacterTextSplitter.t),
        CharacterTextSplitter.__init__ size' overlap' = Returns sp ->
        chunk_size sp = size' /\ chunk_overlap sp = overlap'
        /\ chunk_overlap sp < chunk_size sp).
Proof. apply (init_rejects_large_overlap 50 200). lia. Defined.

Example init_rejects_equal_sizes :
  CharacterTextSplitter.__init__ 1000 1000
  = Raises (Exn AssertionError CharacterTextSplitter.assert_msg).
Proof. reflexivity. Qed.

Example init_accepts_defaults :
  CharacterTextSplitter.__init__ CharacterTextSplitter.default_chunk_size
                                 CharacterTextSplitter.default_chunk_overlap
  = Returns (MkSplitter 1000 200).
Proof. reflexivity. Qed.

(** ** Runs of the YouTubeLoader methods *)

Ltac run_eff :=
  unfold Eff.bind, Eff.try_except, Eff.try_bare_except, Eff.get_self,
    Eff.set_self, Eff.emit, Eff.lift, Eff.raise, Eff.ret; simpl.

Lemma get_transcript_run (net : network) (l : YouTubeLoader.t)
    (lg : list event) :
  YouTubeLoader._get_transcript net (St l lg)
  = (match LoaderSpec.fetched net (YouTubeLoader.video_id l) with
     | Returns d => Returns (LoaderSpec.transcript_body d)
     | Raises e => Raises (transcript_error (YouTubeLoader.video_id l) e)
     end,
     St l (lg ++ LoaderSpec.transcript_calls net (YouTubeLoader.video_id l))).
Proof.
  unfold YouTubeLoader._get_transcript, YouTubeLoader.fetch, LoaderSpec.fetched,
    LoaderSpec.transcript_calls, transcript_error, reraised. run_eff.
  destruct (transcript_fetch net (YouTubeLoader.video_id l) (Some ["en"])) as [d|e1];
    simpl; [reflexivity|].
  rewrite <- app_assoc. simpl.
  destruct (transcript_fetch net (YouTubeLoader.video_id l) None) as [d|e2];
    simpl; [reflexivity|].
  destruct (is_exception e2); reflexivity.
Qed.

Lemma metadata_fetch_fails_response (net : network) (u : string) (e : exn) :
  LoaderSpec.metadata_fetch_fails net u e <-> metadata_response net u = Raises e.
Proof.
  unfold metadata_response. split.
  - intros [e' Hget | r e' Hget Hst | r e' Hget Hst Hbody]; rewrite Hget;
      [reflexivity | now rewrite Hst | now rewrite Hst].
  - destruct (http_get net (YouTubeLoader.oembed_url u) 10) as [r|e'] eqn:Hget.
    + destruct (raise_for_status r) as [e'|] eqn:Hst.
      * intros [= <-]. now apply LoaderSpec.bad_status with r.
      * intros Hbody. now apply LoaderSpec.malformed_response with r.
    + intros [= <-]. now apply LoaderSpec.network_error.
Qed.

Lemma get_video_metadata_run (net : network) (l : YouTubeLoader.t)
    (lg : list event) :
  let request := EvHttpGet (YouTubeLoader.oembed_url (YouTubeLoader.url l)) 10 in
  YouTubeLoader._get_video_metadata net (St l lg)
  = match metadata_response net (YouTubeLoader.url l) with
    | Returns m => (Returns m, St l (lg ++ [request]))
    | Raises e =>
        if is_exception e then
          (Returns (JObject YouTubeLoader.placeholder_metadata),
           St l (lg ++ [request;
                        EvPrint ("Warning: Could not fetch video metadata: "
                                   +:+ exn_str e)]))
        else (Raises e, St l (lg ++ [request]))
    end.
Proof.
  unfold YouTubeLoader._get_video_metadata, metadata_response. run_eff.
  destruct (http_get net (YouTubeLoader.oembed_url (YouTubeLoader.url l)) 10)
    as [r|e]; simpl.
  - destruct (raise_for_status r) as [e|]; simpl.
    + destruct (is_exception e); simpl; [now rewrite <- app_assoc | reflexivity].
    + destruct (json_body r) as [m|e]; simpl; [reflexivity|].
      destruct (is_exception e); simpl; [now rewrite <- app_assoc | reflexivity].
  - destruct (is_exception e); simpl; [now rewrite <- app_assoc | reflexivity].
Qed.

Lemma get_video_metadata_fails (net : network) (l : YouTubeLoader.t)
    (lg : list event) (e : exn) :
  LoaderSpec.metadata_fetch_fails net (YouTubeLoader.url l) e ->
  is_exception e = true ->
  YouTubeLoader._get_video_metadata net (St l lg)
  = (Returns (JObject YouTubeLoader.placeholder_metadata),
     St l (lg ++ [EvHttpGet (YouTubeLoader.oembed_url (YouTubeLoader.url l)) 10;
                  EvPrint ("Warning: Could not fetch video metadata: "
                             +:+ exn_str e)])).
Proof.
  intros Hfail Hexc. apply metadata_fetch_fails_response in Hfail.
  rewrite get_video_metadata_run, Hfail, Hexc. reflexivity.
Qed.

Lemma load_error_of_exception (e : exn) :
  is_exception e = true ->
  load_error e = Exn ValueError ("Failed to load YouTube video: " +:+ exn_str e).
Proof. intros H. unfold load_error, reraised. now rewrite H. Qed.

Lemma load_run (net : network) (u : string) (incl : bool) (vid : string)
    (docs : list string) (md0 : json) (lg : list event) :
  YouTubeLoader.load net (St (YouTubeLoader.MkLoader u incl docs md0 vid) lg)
  = let '(r, new, md, mlog) := load_result net u incl vid in
    (r,
     St (YouTubeLoader.MkLoader u incl (docs ++ new) (from_option id md0 md) vid)
        (lg ++ LoaderSpec.transcript_calls net vid ++ mlog)).
Proof.
  unfold load_result, YouTubeLoader.load.
  unfold Eff.try_except at 1. unfold Eff.bind at 1.
  rewrite get_transcript_run. cbn [YouTubeLoader.video_id].
  destruct (LoaderSpec.fetched net vid) as [d|e].
  - unfold Eff.bind at 1. unfold Eff.get_self at 1. cbn [self fst snd].
    cbn [YouTubeLoader.include_metadata].
    destruct incl.
    + unfold Eff.bind at 1. unfold Eff.bind at 1.
      rewrite get_video_metadata_run. cbn [YouTubeLoader.url].
      destruct (metadata_response net u) as [m|e].
      * run_eff. rewrite <- app_assoc.
        destruct m as [fields | | v]; simpl;
          first [reflexivity | rewrite app_nil_r; reflexivity].
      * destruct (is_exception e) eqn:He.
        -- run_eff. rewrite <- app_assoc. reflexivity.
        -- run_eff. rewrite He. now rewrite app_nil_r, <- app_assoc.
    + run_eff. now rewrite app_nil_r.
  - unfold load_error, transcript_error, reraised.
    destruct (is_exception e) eqn:He; run_eff; rewrite ?He;
      now rewrite !app_nil_r.
Qed.

Lemma append_assoc (s1 s2 s3 : string) :
  (s1 +:+ s2) +:+ s3 = s1 +:+ (s2 +:+ s3).
Proof.
  induction s1 as [|c s1 IH]; [reflexivity|].
  change (String c ((s1 +:+ s2) +:+ s3) = String c (s1 +:+ (s2 +:+ s3))).
  now rewrite IH.
Qed.

(** The formatted document ends with the transcript. *)
Lemma format_document_ends_with_transcript
    (title author vid u transcript : string) :
  exists heading : string,
    YouTubeLoader.format_document title author vid u transcript
    = heading +:+ transcript.
Proof.
  exists ("Title: " +:+ title +:+ PyStr.nl
          +:+ "Author: " +:+ author +:+ PyStr.nl
          +:+ "Video ID: " +:+ vid +:+ PyStr.nl
          +:+ "URL: " +:+ u +:+ PyStr.nl
          +:+ PyStr.nl
          +:+ "Transcript:" +:+ PyStr.nl).
  unfold YouTubeLoader.format_document.
  now rewrite !append_assoc.
Qed.

(** ** Failures of the YouTubeLoader *)

(** C6. When the request for the preferred language raises (anything) and
    the retry for any language raises an exception [e2], an instance of
    [Exception] as the failures of a fetch are, [load] and [load_documents]
    raise an error whose message names the video identifier and the cause
    (the text of [e2]); the loader is left as it was, so no document is
    produced, and the only calls made are the two transcript requests. *)
Theorem load_fails_without_transcript (net : network)
    (l : YouTubeLoader.t) (lg : list event) (e1 e2 : exn) :
  transcript_fetch net (YouTubeLoader.video_id l) (Some ["en"]) = Raises e1 ->
  transcript_fetch net (YouTubeLoader.video_id l) None = Raises e2 ->
  is_exception e2 = true ->
  let err :=
    Exn ValueError
        ("Failed to load YouTube video: "
           +:+ ("Could not retrieve transcript for video "
                  +:+ YouTubeLoader.video_id l +:+ ": " +:+ exn_str e2)) in
  let s' :=
    St l (lg ++ [EvTranscriptFetch (YouTubeLoader.video_id l) (Some ["en"]);
                 EvTranscriptFetch (YouTubeLoader.video_id l) None]) in
  YouTubeLoader.load net (St l lg) = (Raises err, s')
  /\ YouTubeLoader.load_documents net (St l lg) = (Raises err, s')
  /\ YouTubeLoader.documents (self s') = YouTubeLoader.documents l.
Proof.
  intros H1 H2 Hexc err s'.
  assert (Hload : YouTubeLoader.load net (St l lg) = (Raises err, s')).
  { destruct l as [u incl docs md0 vid]. cbn [YouTubeLoader.video_id] in *.
    rewrite load_run. unfold load_result, LoaderSpec.fetched.
    rewrite H1, H2. unfold s', err, LoaderSpec.transcript_calls.
    rewrite H1. unfold load_error, transcript_error, reraised.
    rewrite Hexc. cbn. now rewrite !app_nil_r. }
  split; [exact Hload | split; [|reflexivity]].
  unfold YouTubeLoader.load_documents, Eff.bind at 1. now rewrite Hload.
Qed.

Lemma load_fails_without_transcript_witness :
  let net := MkNetwork (fun _ _ => Raises (Exn OSError "offline"))
                       (fun _ _ => Raises (Exn (OtherException "TranscriptsDisabled")
                                               "subtitles are disabled")) in
  let l := YouTubeLoader.MkLoader "https://youtu.be/abc" true ["earlier"]
                                  (JObject ∅) "abc" in
  let err :=
    Exn ValueError
        "Failed to load YouTube video: Could not retrieve transcript for video abc: subtitles are disabled" in
  let s' := St l [EvTranscriptFetch "abc" (Some ["en"]); EvTranscriptFetch "abc" None] in
  YouTubeLoader.load net (St l []) = (Raises err, s')
  /\ YouTubeLoader.load_documents net (St l []) = (Raises err, s')
  /\ YouTubeLoader.documents (self s') = ["earlier"].
Proof.
  intros net l.
  apply (load_fails_without_transcript net l []
           (Exn (OtherException "TranscriptsDisabled") "subtitles are disabled")
           (Exn (OtherException "TranscriptsDisabled") "subtitles are disabled"));
    reflexivity.
Defined.

(** An exception of the retry that is not an instance of [Exception] (a
    [KeyboardInterrupt], a [SystemExit]) is caught by neither handler: it
    comes out of [load] as it is, and still no document is appended. The
    preferred-language request may raise such an exception too; the bare
    [except] catches it and the retry is made. *)
Lemma load_lets_non_exception_through (net : network)
    (l : YouTubeLoader.t) (lg : list event) (e1 e2 : exn) :
  transcript_fetch net (YouTubeLoader.video_id l) (Some ["en"]) = Raises e1 ->
  transcript_fetch net (YouTubeLoader.video_id l) None = Raises e2 ->
  is_exception e2 = false ->
  YouTubeLoader.load net (St l lg)
  = (Raises e2,
     St l (lg ++ [EvTranscriptFetch (YouTubeLoader.video_id l) (Some ["en"]);
                  EvTranscriptFetch (YouTubeLoader.video_id l) None])).
Proof.
  intros H1 H2 Hexc.
  destruct l as [u incl docs md0 vid]. cbn [YouTubeLoader.video_id] in *.
  rewrite load_run. unfold load_result, LoaderSpec.fetched.
  rewrite H1, H2. unfold LoaderSpec.transcript_calls.
  rewrite H1. unfold load_error, transcript_error, reraised.
  rewrite Hexc. cbn. rewrite Hexc. now rewrite !app_nil_r.
Qed.

Example load_keyboard_interrupt :
  let net :=
    MkNetwork (fun _ _ => Raises (Exn OSError "offline"))
              (fun _ langs =>
                 match langs with
                 | Some _ => Raises (Exn (OtherException "NoTranscriptFound") "no en")
                 | None => Raises (Exn (NonException "KeyboardInterrupt") "")
                 end) in
  let l := YouTubeLoader.MkLoader "https://youtu.be/abc" true [] (JObject ∅) "abc" in
  fst (YouTubeLoader.load net (St l []))
  = Raises (Exn (NonException "KeyboardInterrupt") "").
Proof. reflexivity. Qed.



(** The two limits of C2. A metadata request that raises something that is
    not an instance of [Exception] is not caught: [load] raises it, with the
    transcript fetched and no document appended. *)
Lemma metadata_non_exception_fails_load (net : network)
    (l : YouTubeLoader.t) (lg : list event) (d : fetched_transcript)
    (e : exn) :
  YouTubeLoader.include_metadata l = true ->
  LoaderSpec.fetched net (YouTubeLoader.video_id l) = Returns d ->
  LoaderSpec.metadata_fetch_fails net (YouTubeLoader.url l) e ->
  is_exception e = false ->
  YouTubeLoader.load net (St l lg)
  = (Raises e,
     St l (lg ++ LoaderSpec.transcript_calls net (YouTubeLoader.video_id l)
              ++ [EvHttpGet (YouTubeLoader.oembed_url (YouTubeLoader.url l)) 10])).
Proof.
  intros Hincl Hf Hfail Hexc.
  destruct l as [u incl docs md0 vid]. simpl in *. subst incl.
  apply metadata_fetch_fails_response in Hfail.
  rewrite load_run. unfold load_result. rewrite Hf, Hfail, Hexc.
  now rewrite app_nil_r.
Qed.

(** And a response that is not what the endpoint should send but still
    decodes, here to a JSON array, is no failure of the request: the
    placeholder is not used and [load] fails. *)
Example metadata_array_fails_load :
  let net :=
    MkNetwork
      (fun _ _ => Returns (MkResponse None (Returns JArray)))
      (fun _ _ => Returns (MkTranscript [MkSnippet "hello"; MkSnippet "world"])) in
  let l := YouTubeLoader.MkLoader "https://youtu.be/abc" true [] (JObject ∅) "abc" in
  fst (YouTubeLoader.load net (St l []))
  = Raises (Exn ValueError
      "Failed to load YouTube video: 'list' object has no attribute 'get'").
Proof. reflexivity. Qed.


(** ** Order of the steps of a load *)

Lemma transcript_calls_are_transcript (net : network) (vid : string) :
  Forall (fun ev => LoaderSpec.is_transcript_call ev = true)
         (LoaderSpec.transcript_calls net vid)
  /\ Forall (fun ev => LoaderSpec.is_metadata_call ev = false)
            (LoaderSpec.transcript_calls net vid)
  /\ LoaderSpec.transcript_calls net vid <> [].
Proof.
  unfold LoaderSpec.transcript_calls.
  destruct (transcript_fetch net vid (Some ["en"]));
    (split; [|split]); try discriminate; repeat constructor.
Qed.

Lemma occurs_before_app_false (P Q : event -> bool) (xs ys : list event) :
  Forall (fun ev => P ev = false) xs ->
  Forall (fun ev => Q ev = false) ys ->
  LoaderSpec.occurs_before P Q (xs ++ ys) = false.
Proof.
  intros Hxs Hys.
  assert (Hex : existsb Q ys = false).
  { induction Hys as [|y ys Hy _ IH]; simpl; [reflexivity | now rewrite Hy]. }
  assert (Hys' : LoaderSpec.occurs_before P Q ys = false).
  { clear Hxs. induction Hys as [|y ys Hy Hys IH]; simpl; [reflexivity|].
    assert (existsb Q ys = false) as ->.
    { clear IH Hex. induction Hys as [|z zs Hz _ IH]; simpl;
        [reflexivity | now rewrite Hz]. }
    rewrite andb_false_r. simpl. apply IH.
    simpl in Hex. rewrite Hy in Hex. exact Hex. }
  induction Hxs as [|x xs Hx _ IH]; simpl; [exact Hys'|].
  now rewrite Hx.
Qed.

(** C3 (as the code has it). With metadata requested, the identifier is
    extracted at construction; a failure there ends the program with no
    loader and no call made. Otherwise the load makes its transcript
    requests first and the metadata request after them, never the other way
    round; when the transcript cannot be fetched no metadata request is made
    at all. Whenever the load raises, no document has been appended;
    otherwise exactly one has. *)
Theorem load_fetches_transcript_before_metadata (net : network) (u : string)
    (lg : list event) :
  match YouTubeLoader._extract_video_id u with
  | Raises e => YouTubeLoader.construct_and_load net u true lg = (Raises e, None, lg)
  | Returns vid =>
      exists (r : outcome (list string)) (l : YouTubeLoader.t)
             (mlog : list event),
        YouTubeLoader.construct_and_load net u true lg
        = (r, Some l, lg ++ LoaderSpec.transcript_calls net vid ++ mlog)
        /\ YouTubeLoader.video_id l = vid
        /\ Forall (fun ev => LoaderSpec.is_transcript_call ev = true)
                  (LoaderSpec.transcript_calls net vid)
        /\ Forall (fun ev => LoaderSpec.is_transcript_call ev = false) mlog
        /\ LoaderSpec.occurs_before LoaderSpec.is_metadata_call
             LoaderSpec.is_transcript_call
             (LoaderSpec.transcript_calls net vid ++ mlog) = false
        /\ match LoaderSpec.fetched net vid with
           | Raises _ =>
               mlog = [] /\ (exists e, r = Raises e) /\ YouTubeLoader.documents l = []
           | Returns _ =>
               hd_error mlog = Some (EvHttpGet (YouTubeLoader.oembed_url u) 10)
               /\ ((exists doc, r = Returns [doc] /\ YouTubeLoader.documents l = [doc])
                   \/ (exists e, r = Raises e /\ YouTubeLoader.documents l = []))
           end
  end.
Proof.
  unfold YouTubeLoader.construct_and_load, YouTubeLoader.__init__.
  destruct (YouTubeLoader._extract_video_id u) as [vid|e]; [|reflexivity].
  destruct (transcript_calls_are_transcript net vid) as (Ht & Htm & _).
  assert (Hob : forall mlog,
             Forall (fun ev => LoaderSpec.is_transcript_call ev = false) mlog ->
             LoaderSpec.occurs_before LoaderSpec.is_metadata_call
               LoaderSpec.is_transcript_call
               (LoaderSpec.transcript_calls net vid ++ mlog) = false)
    by (intros mlog Hm; now apply occurs_before_app_false).
  unfold YouTubeLoader.load_documents, Eff.bind at 1. rewrite load_run.
  unfold load_result.
  destruct (LoaderSpec.fetched net vid) as [d|e].
  - assert (Hreq : Forall (fun ev => LoaderSpec.is_transcript_call ev = false)
                          [EvHttpGet (YouTubeLoader.oembed_url u) 10])
      by repeat constructor.
    destruct (metadata_response net u) as [m|e].
    + destruct m as [fields | | v]; cbn;
        eexists _, _, [_]; (split; [reflexivity|]); cbn;
        (split; [reflexivity|]); (split; [exact Ht|]); (split; [exact Hreq|]);
        (split; [exact (Hob _ Hreq)|]); (split; [reflexivity|]).
      * left. eexists. split; reflexivity.
      * right. eexists. split; reflexivity.
      * right. eexists. split; reflexivity.
    + destruct (is_exception e); cbn.
      * assert (Hwarn : Forall (fun ev => LoaderSpec.is_transcript_call ev = false)
                          [EvHttpGet (YouTubeLoader.oembed_url u) 10;
                           EvPrint ("Warning: Could not fetch video metadata: "
                                      +:+ exn_str e)])
          by repeat constructor.
        eexists _, _, [_; _]. split; [reflexivity|]. cbn.
        split; [reflexivity|]. split; [exact Ht|]. split; [exact Hwarn|].
        split; [exact (Hob _ Hwarn)|]. split; [reflexivity|].
        left. eexists. split; reflexivity.
      * eexists _, _, [_]. split; [reflexivity|]. cbn.
        split; [reflexivity|]. split; [exact Ht|]. split; [exact Hreq|].
        split; [exact (Hob _ Hreq)|]. split; [reflexivity|].
        right. eexists. split; reflexivity.
  - cbn. eexists _, _, []. split; [reflexivity|]. cbn.
    split; [reflexivity|]. split; [exact Ht|]. split; [constructor|].
    split; [apply Hob; constructor|].
    split; [reflexivity|]. split; [eauto | reflexivity].
Qed.

(** C3 as the design document words it does not hold: in this run the
    transcript request is logged before the metadata request, and no
    metadata request precedes a transcript request. *)
Lemma metadata_is_not_fetched_first :
  let net :=
    MkNetwork
      (fun _ _ => Returns (MkResponse None
                    (Returns (JObject (<["title" := JStr "A talk"]> ∅)))))
      (fun _ _ => Returns (MkTranscript [MkSnippet "hello"; MkSnippet "world"])) in
  let calls := snd (YouTubeLoader.construct_and_load net "https://youtu.be/abc" true []) in
  calls = [EvTranscriptFetch "abc" (Some ["en"]);
           EvHttpGet "https://www.youtube.com/oembed?url=https://youtu.be/abc&format=json" 10]
  /\ LoaderSpec.occurs_before LoaderSpec.is_metadata_call
       LoaderSpec.is_transcript_call calls = false
  /\ LoaderSpec.occurs_before LoaderSpec.is_transcript_call
       LoaderSpec.is_metadata_call calls = true.
Proof. repeat split; reflexivity. Qed.

(** ** Extraction of the video identifier *)

Lemma first_group_none (ps : list (list string)) (u : string) :
  (forall p, In p ps -> Re.re_search p u = None) ->
  YouTubeLoader.first_group ps u = None.
Proof.
  induction ps as [|p ps IH]; intros Hall; simpl; [reflexivity|].
  rewrite (Hall p) by now left.
  apply IH. intros q Hq. apply Hall. now right.
Qed.

Lemma first_group_first_match (before : list (list string)) (p : list string)
    (after : list (list string)) (u g : string) :
  (forall q, In q before -> Re.re_search q u = None) ->
  Re.re_search p u = Some g ->
  YouTubeLoader.first_group (before ++ p :: after) u = Some g.
Proof.
  induction before as [|q before IH]; intros Hnone Hp; simpl.
  - now rewrite Hp.
  - rewrite (Hnone q) by now left.
    apply IH; [|exact Hp]. intros q' Hq'. apply Hnone. now right.
Qed.

(** C7. When no pattern matches the URL, the identifier extraction raises
    the error naming the URL, so does the constructor, and the program that
    constructs a loader and loads ends with that error, without a loader and
    with the log of calls untouched. When a pattern matches and no pattern
    before it in the list does, the identifier is the group that pattern
    captured, and the constructor stores it. *)
Theorem extract_video_id_first_match (u : string) :
  ((forall p, In p YouTubeLoader.patterns -> Re.re_search p u = None) ->
   let err := Exn ValueError ("Could not extract video ID from URL: " +:+ u) in
   YouTubeLoader._extract_video_id u = Raises err
   /\ (forall incl, YouTubeLoader.__init__ u incl = Raises err)
   /\ (forall net incl lg,
         YouTubeLoader.construct_and_load net u incl lg = (Raises err, None, lg)))
  /\ (forall before p after g,
        YouTubeLoader.patterns = before ++ p :: after ->
        (forall q, In q before -> Re.re_search q u = None) ->
        Re.re_search p u = Some g ->
        YouTubeLoader._extract_video_id u = Returns g
        /\ (forall incl,
              YouTubeLoader.__init__ u incl
              = Returns (YouTubeLoader.MkLoader u incl [] (JObject ∅) g))).
Proof.
  split.
  - intros Hnone err.
    assert (Hex : YouTubeLoader._extract_video_id u = Raises err).
    { unfold YouTubeLoader._extract_video_id. now rewrite first_group_none. }
    assert (Hinit : forall incl, YouTubeLoader.__init__ u incl = Raises err).
    { intros incl. unfold YouTubeLoader.__init__. now rewrite Hex. }
    split; [exact Hex | split; [exact Hinit|]].
    intros net incl lg. unfold YouTubeLoader.construct_and_load. now rewrite Hinit.
  - intros before p after g Hpat Hnone Hp.
    assert (Hex : YouTubeLoader._extract_video_id u = Returns g).
    { unfold YouTubeLoader._extract_video_id. rewrite Hpat.
      now rewrite (first_group_first_match before p after u g). }
    split; [exact Hex|].
    intros incl. unfold YouTubeLoader.__init__. now rewrite Hex.
Qed.

Lemma extract_video_id_first_match_witness :
  (let err := Exn ValueError
                  "Could not extract video ID from URL: https://example.com/video" in
   YouTubeLoader._extract_video_id "https://example.com/video" = Raises err
   /\ (forall incl, YouTubeLoader.__init__ "https://example.com/video" incl = Raises err)
   /\ (forall net incl lg,
         YouTubeLoader.construct_and_load net "https://example.com/video" incl lg
         = (Raises err, None, lg)))
  /\ (YouTubeLoader._extract_video_id "https://www.youtube.com/v/XYZ?rel=0" = Returns "XYZ"
      /\ (forall incl,
            YouTubeLoader.__init__ "https://www.youtube.com/v/XYZ?rel=0" incl
            = Returns (YouTubeLoader.MkLoader "https://www.youtube.com/v/XYZ?rel=0"
                                        incl [] (JObject ∅) "XYZ"))).
Proof.
  split.
  - apply (proj1 (extract_video_id_first_match "https://example.com/video")).
    intros p [<- | [<- | [<- | []]]]; reflexivity.
  - apply (proj2 (extract_video_id_first_match "https://www.youtube.com/v/XYZ?rel=0")
             [["youtube.com/watch?v="; "youtu.be/"; "youtube.com/embed/"]]
             ["youtube.com/v/"]
             [["youtube.com/embed/"]]
             "XYZ").
    + reflexivity.
    + intros q [<- | []]. reflexivity.
    + reflexivity.
Defined.

Example extract_watch_url :
  YouTubeLoader._extract_video_id "https://www.youtube.com/watch?v=dQw4w9WgXcQ&t=42s"
  = Returns "dQw4w9WgXcQ".
Proof. reflexivity. Qed.

Example extract_short_url :
  YouTubeLoader._extract_video_id "https://youtu.be/dQw4w9WgXcQ?si=abc"
  = Returns "dQw4w9WgXcQ".
Proof. reflexivity. Qed.

Example extract_embed_url :
  YouTubeLoader._extract_video_id "https://www.youtube.com/embed/dQw4w9WgXcQ"
  = Returns "dQw4w9WgXcQ".
Proof. reflexivity. Qed.

(** ** TextFileLoader: paths that are rejected *)

(** C8. When the path is not a directory and is not a file whose name ends
    in [".txt"] (it may be missing, or a file with another extension),
    [load] and [load_documents] raise the invalid-path error; the loader is
    unchanged, and the only calls made are the two checks of what the path
    names: nothing is opened or listed. *)
Theorem load_rejects_other_paths (fs : filesystem)
    (l : TextFileLoader.t) (lg : list event) :
  OsPath.isdir fs (TextFileLoader.path l) = false ->
  OsPath.isfile fs (TextFileLoader.path l)
    && PyStr.endswith (TextFileLoader.path l) ".txt" = false ->
  let err := Exn ValueError TextFileLoader.invalid_path_msg in
  let checks := [EvIsDir (TextFileLoader.path l); EvIsFile (TextFileLoader.path l)] in
  TextFileLoader.load fs (St l lg) = (Raises err, St l (lg ++ checks))
  /\ TextFileLoader.load_documents fs (St l lg) = (Raises err, St l (lg ++ checks))
  /\ Forall (fun ev => LoaderSpec.reads_content ev = false) checks.
Proof.
  intros Hdir Hfile err checks.
  assert (Hload : TextFileLoader.load fs (St l lg) = (Raises err, St l (lg ++ checks))).
  { unfold TextFileLoader.load. run_eff. rewrite Hdir. simpl. rewrite Hfile.
    now rewrite <- app_assoc. }
  split; [exact Hload | split; [|repeat constructor]].
  unfold TextFileLoader.load_documents, Eff.bind at 1. now rewrite Hload.
Qed.

Lemma load_rejects_other_paths_witness :
  let fs : filesystem :=
    fun p => if String.eqb p "notes.md" then Some (File (fun _ => Returns "# notes"))
             else None in
  let l := TextFileLoader.__init__ "notes.md" "utf-8" in
  let err := Exn ValueError TextFileLoader.invalid_path_msg in
  let checks := [EvIsDir "notes.md"; EvIsFile "notes.md"] in
  TextFileLoader.load fs (St l []) = (Raises err, St l checks)
  /\ TextFileLoader.load_documents fs (St l []) = (Raises err, St l checks)
  /\ Forall (fun ev => LoaderSpec.reads_content ev = false) checks.
Proof.
  intros fs l.
  apply (load_rejects_other_paths fs l []); reflexivity.
Defined.

Example load_rejects_missing_path :
  TextFileLoader.load (fun _ => None) (St (TextFileLoader.__init__ "missing.txt" "utf-8") [])
  = (Raises (Exn ValueError TextFileLoader.invalid_path_msg),
     St (TextFileLoader.__init__ "missing.txt" "utf-8")
        [EvIsDir "missing.txt"; EvIsFile "missing.txt"]).
Proof. reflexivity. Qed.

(** ** TextFileLoader: loading a directory *)

(** Induction on a directory tree, with the hypothesis for every entry. *)
Lemma node_tree_ind (P : node -> Prop) :
  (forall rd, P (File rd)) ->
  (forall entries, Forall (fun e => P (snd e)) entries -> P (Dir entries)) ->
  forall n, P n.
Proof.
  intros Hfile Hdir.
  fix IH 1. intros [rd | entries].
  - apply Hfile.
  - apply Hdir. induction entries as [|[name sub] rest IHrest].
    + constructor.
    + constructor; [apply IH | exact IHrest].
Qed.

(** The files of the triples [os.walk] yields are the files the tree
    contains, in the same order. *)
Lemma os_walk_files (n : node) (top : string) :
  flat_map (fun t => snd t) (os_walk top n) = LoaderSpec.contained_files n.
Proof.
  revert top. induction n as [rd | entries IH] using node_tree_ind; intros top.
  - reflexivity.
  - simpl. f_equal.
    induction entries as [|[name sub] rest IHrest]; [reflexivity|].
    inversion IH as [|? ? Hsub Hrest]; subst.
    rewrite flat_map_app. simpl in Hsub. rewrite Hsub.
    f_equal. now apply IHrest.
Qed.

(** Membership in [contained_files] is containment in the tree. *)
Lemma contained_files_contains (n : node) (name : string)
    (rd : string -> outcome string) :
  In (name, rd) (LoaderSpec.contained_files n) <-> LoaderSpec.contains n name rd.
Proof.
  induction n as [rd' | entries IH] using node_tree_ind.
  - split; [intros [] | intros H; inversion H].
  - simpl. rewrite in_app_iff. split.
    + intros [Hhere | Hbelow].
      * apply LoaderSpec.contains_here.
        unfold filenames in Hhere. apply in_flat_map in Hhere as ([nm x] & Hin & Hx).
        simpl in Hx. destruct x as [rd'|es]; [|destruct Hx].
        destruct Hx as [[= <- <-] | []]. exact Hin.
      * induction entries as [|[d sub] rest IHrest]; [destruct Hbelow|].
        inversion IH as [|? ? Hsub Hrest]; subst. simpl in Hsub.
        apply in_app_iff in Hbelow as [Hin | Hin].
        -- apply LoaderSpec.contains_below with d sub; [now left | now apply Hsub].
        -- specialize (IHrest Hrest Hin).
           inversion IHrest as [? ? ? Hh | ? d' sub' ? ? Hd Hc]; subst.
           ++ apply LoaderSpec.contains_here. now right.
           ++ apply LoaderSpec.contains_below with d' sub'; [now right | exact Hc].
    + intros Hc. inversion Hc as [? ? ? Hh | ? d sub ? ? Hd Hsub]; subst.
      * left. unfold filenames. apply in_flat_map.
        exists (name, File rd). split; [exact Hh | now left].
      * right. clear Hc.
        induction entries as [|[d' sub'] rest IHrest]; [destruct Hd|].
        inversion IH as [|? ? Hhead Hrest]; subst. simpl in Hhead.
        apply in_app_iff. destruct Hd as [[= -> ->] | Hd].
        -- left. now apply Hhead.
        -- right. now apply IHrest.
Qed.

Lemma inner_loop_readable (root : string)
    (files : list (string * (string -> outcome string))) :
  forall (docs : list string) (l : TextFileLoader.t) (lg : list event),
    map (fun f => snd f (TextFileLoader.encoding l)) (filter LoaderSpec.is_text_file files)
    = map Returns docs ->
    exists lg',
      Eff.for_each files (TextFileLoader.load_walked_file root) (St l lg)
      = (Returns tt,
         St (TextFileLoader.MkLoader (TextFileLoader.documents l ++ docs)
                                     (TextFileLoader.path l)
                               (TextFileLoader.encoding l)) lg').
Proof.
  induction files as [|[file rd] files IH]; intros docs l lg Hread.
  - destruct docs; [|discriminate]. destruct l. simpl. rewrite app_nil_r. eauto.
  - simpl. unfold Eff.bind at 1. unfold TextFileLoader.load_walked_file at 1.
    destruct (decide (LoaderSpec.is_text_file (file, rd))) as [Hyes | Hno].
    + rewrite filter_cons_True in Hread by exact Hyes.
      unfold LoaderSpec.is_text_file in Hyes. simpl in Hyes. rewrite Hyes.
      simpl in Hread.
      destruct docs as [|doc docs]; [discriminate|].
      injection Hread as Hrd Hrest.
      unfold TextFileLoader.open_read, TextFileLoader.append_document. run_eff.
      rewrite Hrd. simpl.
      destruct (IH docs
                  (TextFileLoader.MkLoader (TextFileLoader.documents l ++ [doc])
                                     (TextFileLoader.path l) (TextFileLoader.encoding l))
                  (lg ++ [EvOpen (OsPath.join root file) (TextFileLoader.encoding l)])
                  Hrest) as [lg' Hrun].
      exists lg'. simpl in Hrun. rewrite <- app_assoc in Hrun. exact Hrun.
    + rewrite filter_cons_False in Hread by exact Hno.
      unfold LoaderSpec.is_text_file in Hno. simpl in Hno.
      apply not_true_is_false in Hno. rewrite Hno.
      run_eff. exact (IH docs l lg Hread).
Qed.

Lemma outer_loop_readable
    (triples : list (string * list string
                     * list (string * (string -> outcome string)))) :
  forall (docs : list string) (l : TextFileLoader.t) (lg : list event),
    map (fun f => snd f (TextFileLoader.encoding l))
        (filter LoaderSpec.is_text_file (flat_map (fun t => snd t) triples))
    = map Returns docs ->
    exists lg',
      Eff.for_each triples TextFileLoader.load_walked_dir (St l lg)
      = (Returns tt,
         St (TextFileLoader.MkLoader (TextFileLoader.documents l ++ docs)
                                     (TextFileLoader.path l)
                               (TextFileLoader.encoding l)) lg').
Proof.
  induction triples as [|[[root dirs] files] triples IH]; intros docs l lg Hread.
  - destruct docs; [|discriminate]. destruct l. simpl. rewrite app_nil_r. eauto.
  - simpl in Hread. rewrite filter_app, map_app in Hread.
    symmetry in Hread. apply map_eq_app in Hread as (d1 & d2 & -> & H1 & H2).
    simpl. unfold Eff.bind at 1. unfold TextFileLoader.load_walked_dir at 1.
    destruct (inner_loop_readable root files d1 l lg (eq_sym H1)) as [lg1 Hrun1].
    rewrite Hrun1.
    destruct (IH d2
                (TextFileLoader.MkLoader (TextFileLoader.documents l ++ d1)
                                   (TextFileLoader.path l) (TextFileLoader.encoding l))
                lg1 (eq_sym H2)) as [lg2 Hrun2].
    exists lg2. simpl in Hrun2. rewrite <- app_assoc in Hrun2. exact Hrun2.
Qed.

(** A name ending in one suffix ends with that suffix's last character. *)
Lemma endswith_last_char (s p : string) :
  PyStr.endswith s p = true -> p <> "" ->
  get (String.length s - 1) s = get (String.length p - 1) p.
Proof.
  unfold PyStr.endswith. intros H Hp.
  apply andb_true_iff in H as [Hle Heq].
  apply Nat.leb_le in Hle. apply String.eqb_eq in Heq.
  assert (0 < String.length p)%nat by (destruct p; simpl; [congruence | lia]).
  rewrite <- Heq at 2. rewrite get_substring.
  destruct (Nat.ltb_spec (String.length p - 1) (String.length p)); [|lia].
  f_equal. lia.
Qed.

Lemma md_is_not_txt (name : string) :
  PyStr.endswith name ".md" = true -> PyStr.endswith name ".txt" = false.
Proof.
  intros Hmd. destruct (PyStr.endswith name ".txt") eqn:Htxt; [|reflexivity].
  apply endswith_last_char in Hmd; [|discriminate].
  apply endswith_last_char in Htxt; [|discriminate].
  rewrite Hmd in Htxt. discriminate Htxt.
Qed.

Lemma contained_files_flat_map (entries : list (string * node)) :
  LoaderSpec.contained_files (Dir entries)
  = filenames entries
    ++ flat_map (fun e => LoaderSpec.contained_files (snd e)) entries.
Proof.
  simpl. f_equal.
  induction entries as [|[name sub] rest IH]; [reflexivity|].
  simpl. now rewrite IH.
Qed.

Lemma text_files_length_permutation (entries entries' : list (string * node)) :
  entries ≡ₚ entries' ->
  length (LoaderSpec.text_files (Dir entries))
  = length (LoaderSpec.text_files (Dir entries')).
Proof.
  intros Hperm. unfold LoaderSpec.text_files.
  rewrite !contained_files_flat_map.
  apply Permutation_length, filter_Permutation.
  apply Permutation_app; unfold filenames; now apply Permutation_flat_map.
Qed.

(** C9. On a directory whose text files can all be read, [load] succeeds
    and appends, after the documents already held, the contents of the files
    whose names end in [".txt"], in the order [os.walk] reaches them; these
    are the files with such a name found at any depth of the tree, one
    document each. In particular a directory holding three [.txt] files and
    one [.md] file, in any order, gives exactly three documents. *)
Theorem load_directory_loads_text_files (fs : filesystem)
    (l : TextFileLoader.t) (lg : list event)
    (entries : list (string * node)) (docs : list string) :
  fs (TextFileLoader.path l) = Some (Dir entries) ->
  map (fun f => snd f (TextFileLoader.encoding l))
      (LoaderSpec.text_files (Dir entries))
  = map Returns docs ->
  (exists lg',
      TextFileLoader.load fs (St l lg)
      = (Returns tt,
         St (TextFileLoader.MkLoader (TextFileLoader.documents l ++ docs)
                                     (TextFileLoader.path l)
                               (TextFileLoader.encoding l)) lg'))
  /\ (forall name rd,
        In (name, rd) (LoaderSpec.text_files (Dir entries))
        <-> LoaderSpec.contains (Dir entries) name rd
            /\ PyStr.endswith name ".txt" = true)
  /\ length docs = length (LoaderSpec.text_files (Dir entries))
  /\ (forall n1 n2 n3 n4 r1 r2 r3 r4,
        entries ≡ₚ [(n1, File r1); (n2, File r2); (n3, File r3); (n4, File r4)] ->
        PyStr.endswith n1 ".txt" = true ->
        PyStr.endswith n2 ".txt" = true ->
        PyStr.endswith n3 ".txt" = true ->
        PyStr.endswith n4 ".md" = true ->
        length docs = 3%nat).
Proof.
  intros Hdir Hread.
  assert (Hlen : length docs = length (LoaderSpec.text_files (Dir entries))).
  { rewrite <- (length_map Returns docs), <- Hread. now rewrite length_map. }
  split; [|split; [|split; [exact Hlen|]]].
  - unfold TextFileLoader.load, TextFileLoader.load_directory, OsPath.isdir. run_eff.
    rewrite Hdir. simpl. rewrite ?Hdir.
    unfold LoaderSpec.text_files in Hread.
    rewrite <- (os_walk_files (Dir entries) (TextFileLoader.path l)) in Hread.
    destruct (outer_loop_readable (os_walk (TextFileLoader.path l) (Dir entries))
                docs l
                ((lg ++ [EvIsDir (TextFileLoader.path l)]) ++ [EvWalk (TextFileLoader.path l)])
                Hread) as [lg' Hrun].
    exists lg'. exact Hrun.
  - intros name rd. unfold LoaderSpec.text_files.
    rewrite <- list_elem_of_In, list_elem_of_filter, list_elem_of_In.
    rewrite contained_files_contains. unfold LoaderSpec.is_text_file. simpl.
    tauto.
  - intros n1 n2 n3 n4 r1 r2 r3 r4 Hperm H1 H2 H3 H4.
    rewrite Hlen, (text_files_length_permutation _ _ Hperm).
    unfold LoaderSpec.text_files. rewrite contained_files_flat_map. simpl.
    rewrite !filter_cons, filter_nil.
    unfold LoaderSpec.is_text_file. simpl.
    rewrite H1, H2, H3, (md_is_not_txt n4 H4).
    reflexivity.
Qed.

Lemma load_directory_loads_text_files_witness :
  let tree :=
    [("a.txt", File (fun _ => Returns "alpha"));
     ("notes.md", File (fun _ => Returns "# notes"));
     ("sub", Dir [("b.txt", File (fun _ => Returns "beta"));
                  ("deeper", Dir [("c.txt", File (fun _ => Returns "gamma"))])]);
     ("d.TXT", File (fun _ => Returns "delta"))] in
  let fs : filesystem :=
    fun p => if String.eqb p "data" then Some (Dir tree) else None in
  let l := TextFileLoader.__init__ "data" "utf-8" in
  (exists lg',
      TextFileLoader.load fs (St l [])
      = (Returns tt,
         St (TextFileLoader.MkLoader ["alpha"; "beta"; "gamma"] "data" "utf-8") lg'))
  /\ (forall name rd,
        In (name, rd) (LoaderSpec.text_files (Dir tree))
        <-> LoaderSpec.contains (Dir tree) name rd
            /\ PyStr.endswith name ".txt" = true)
  /\ length ["alpha"; "beta"; "gamma"] = length (LoaderSpec.text_files (Dir tree))
  /\ (forall n1 n2 n3 n4 r1 r2 r3 r4,
        tree ≡ₚ [(n1, File r1); (n2, File r2); (n3, File r3); (n4, File r4)] ->
        PyStr.endswith n1 ".txt" = true ->
        PyStr.endswith n2 ".txt" = true ->
        PyStr.endswith n3 ".txt" = true ->
        PyStr.endswith n4 ".md" = true ->
        length ["alpha"; "beta"; "gamma"] = 3%nat).
Proof.
  intros tree fs l.
  apply (load_directory_loads_text_files fs l [] tree ["alpha"; "beta"; "gamma"]);
    reflexivity.
Defined.

(** The directory of the design document's example: three [.txt] files and
    one [.md] file give three documents, in listing order. *)
Example load_three_text_files :
  let entries :=
    [("one.txt", File (fun _ => Returns "1"));
     ("readme.md", File (fun _ => Returns "ignored"));
     ("two.txt", File (fun _ => Returns "2"));
     ("three.txt", File (fun _ => Returns "3"))] in
  let fs : filesystem :=
    fun p => if String.eqb p "corpus" then Some (Dir entries) else None in
  TextFileLoader.load_documents fs (St (TextFileLoader.__init__ "corpus" "utf-8") [])
  = (Returns ["1"; "2"; "3"],
     St (TextFileLoader.MkLoader ["1"; "2"; "3"] "corpus" "utf-8")
        [EvIsDir "corpus"; EvWalk "corpus";
         EvOpen "corpus/one.txt" "utf-8"; EvOpen "corpus/two.txt" "utf-8";
         EvOpen "corpus/three.txt" "utf-8"]).
Proof. reflexivity. Qed.

(** ** What a load of text files appends *)

Lemma read_all_app (enc : string)
    (a b : list (string * (string -> outcome string))) :
  read_all enc (a ++ b)
  = match read_all enc a with
    | (ca, Some e) => (ca, Some e)
    | (ca, None) => let '(cb, r) := read_all enc b in (ca ++ cb, r)
    end.
Proof.
  induction a as [|f a IH]; simpl.
  - now destruct (read_all enc b).
  - destruct (snd f enc) as [c|e]; [|reflexivity].
    rewrite IH. destruct (read_all enc a) as [ca [e|]]; [reflexivity|].
    now destruct (read_all enc b).
Qed.

Lemma read_all_stops (enc : string)
    (before : list (string * (string -> outcome string)))
    (f : string * (string -> outcome string))
    (after : list (string * (string -> outcome string)))
    (docs : list string) (e : exn) :
  map (fun g => snd g enc) before = map Returns docs ->
  snd f enc = Raises e ->
  read_all enc (before ++ f :: after) = (docs, Some e).
Proof.
  revert docs. induction before as [|g before IH]; intros docs Hread Hf.
  - destruct docs; [|discriminate]. simpl. now rewrite Hf.
  - destruct docs as [|doc docs]; [discriminate|].
    simpl in Hread. injection Hread as Hg Hrest.
    simpl. rewrite Hg, (IH docs Hrest Hf). reflexivity.
Qed.

Lemma inner_loop_read_all (root : string)
    (files : list (string * (string -> outcome string))) :
  forall (l : TextFileLoader.t) (lg : list event),
    exists lg',
      Eff.for_each files (TextFileLoader.load_walked_file root) (St l lg)
      = (match snd (read_all (TextFileLoader.encoding l)
                             (filter LoaderSpec.is_text_file files)) with
         | None => Returns tt
         | Some e => Raises e
         end,
         St (TextFileLoader.MkLoader
               (TextFileLoader.documents l
                ++ fst (read_all (TextFileLoader.encoding l)
                                 (filter LoaderSpec.is_text_file files)))
               (TextFileLoader.path l) (TextFileLoader.encoding l)) lg').
Proof.
  induction files as [|[file rd] files IH]; intros l lg.
  - destruct l. simpl. rewrite app_nil_r. eauto.
  - simpl. unfold Eff.bind at 1. unfold TextFileLoader.load_walked_file at 1.
    destruct (decide (LoaderSpec.is_text_file (file, rd))) as [Hyes | Hno].
    + rewrite filter_cons_True by exact Hyes.
      unfold LoaderSpec.is_text_file in Hyes. simpl in Hyes. rewrite Hyes.
      unfold TextFileLoader.open_read, TextFileLoader.append_document. run_eff.
      destruct (rd (TextFileLoader.encoding l)) as [doc|e] eqn:Hrd; simpl.
      * destruct (IH (TextFileLoader.MkLoader (TextFileLoader.documents l ++ [doc])
                        (TextFileLoader.path l) (TextFileLoader.encoding l))
                     (lg ++ [EvOpen (OsPath.join root file)
                                    (TextFileLoader.encoding l)]))
          as [lg' Hrun].
        simpl in Hrun.
        destruct (read_all (TextFileLoader.encoding l)
                           (filter LoaderSpec.is_text_file files)) as [cs r].
        simpl in *. rewrite <- app_assoc in Hrun. simpl in Hrun.
        exists lg'. exact Hrun.
      * destruct l. simpl. rewrite app_nil_r. eauto.
    + rewrite filter_cons_False by exact Hno.
      unfold LoaderSpec.is_text_file in Hno. simpl in Hno.
      apply not_true_is_false in Hno. rewrite Hno.
      run_eff. exact (IH l lg).
Qed.

Lemma outer_loop_read_all
    (triples : list (string * list string
                     * list (string * (string -> outcome string)))) :
  forall (l : TextFileLoader.t) (lg : list event),
    exists lg',
      Eff.for_each triples TextFileLoader.load_walked_dir (St l lg)
      = (match snd (read_all (TextFileLoader.encoding l)
                      (filter LoaderSpec.is_text_file
                              (flat_map (fun t => snd t) triples))) with
         | None => Returns tt
         | Some e => Raises e
         end,
         St (TextFileLoader.MkLoader
               (TextFileLoader.documents l
                ++ fst (read_all (TextFileLoader.encoding l)
                          (filter LoaderSpec.is_text_file
                                  (flat_map (fun t => snd t) triples))))
               (TextFileLoader.path l) (TextFileLoader.encoding l)) lg').
Proof.
  induction triples as [|[[root dirs] files] triples IH]; intros l lg.
  - destruct l. simpl. rewrite app_nil_r. eauto.
  - simpl. rewrite filter_app, read_all_app.
    unfold Eff.bind at 1. unfold TextFileLoader.load_walked_dir at 1.
    destruct (inner_loop_read_all root files l lg) as [lg1 Hrun1].
    rewrite Hrun1.
    destruct (read_all (TextFileLoader.encoding l)
                       (filter LoaderSpec.is_text_file files)) as [ca [e|]]; simpl.
    + eauto.
    + destruct (IH (TextFileLoader.MkLoader (TextFileLoader.documents l ++ ca)
                      (TextFileLoader.path l) (TextFileLoader.encoding l)) lg1)
        as [lg2 Hrun2].
      simpl in Hrun2.
      destruct (read_all (TextFileLoader.encoding l)
                  (filter LoaderSpec.is_text_file
                          (flat_map (fun t => snd t) triples))) as [cb r].
      simpl in *. rewrite <- app_assoc in Hrun2.
      exists lg2. exact Hrun2.
Qed.

Lemma read_all_success (enc : string)
    (files : list (string * (string -> outcome string))) :
  snd (read_all enc files) = None ->
  map (fun f => snd f enc) files = map Returns (fst (read_all enc files)).
Proof.
  induction files as [|f files IH]; simpl; [reflexivity|].
  destruct (snd f enc) as [c|e]; [|discriminate].
  destruct (read_all enc files) as [cs r]. simpl in *.
  intros Hr. now rewrite (IH Hr).
Qed.

Lemma text_load_run (fs : filesystem) (docs : list string) (p enc : string)
    (lg : list event) :
  exists lg',
    TextFileLoader.load fs (St (TextFileLoader.MkLoader docs p enc) lg)
    = (fst (text_load_result fs p enc),
       St (TextFileLoader.MkLoader (docs ++ snd (text_load_result fs p enc)) p enc)
          lg').
Proof.
  unfold text_load_result, TextFileLoader.load, OsPath.isdir, OsPath.isfile.
  run_eff.
  destruct (fs p) as [[rd | entries]|] eqn:Hp; simpl.
  - destruct (PyStr.endswith p ".txt"); simpl.
    + unfold TextFileLoader.load_file, TextFileLoader.open_read,
        TextFileLoader.append_document. run_eff. rewrite Hp. simpl.
      destruct (rd enc); simpl; rewrite ?app_nil_r; eauto.
    + rewrite app_nil_r. eauto.
  - unfold TextFileLoader.load_directory. run_eff. rewrite Hp.
    destruct (outer_loop_read_all (os_walk p (Dir entries))
                (TextFileLoader.MkLoader docs p enc)
                ((lg ++ [EvIsDir p]) ++ [EvWalk p])) as [lg' Hrun].
    rewrite os_walk_files in Hrun.
    change (filter LoaderSpec.is_text_file (LoaderSpec.contained_files (Dir entries)))
      with (LoaderSpec.text_files (Dir entries)) in Hrun.
    cbn [TextFileLoader.encoding TextFileLoader.documents TextFileLoader.path] in Hrun.
    exists lg'. rewrite Hrun.
    now destruct (read_all enc (LoaderSpec.text_files (Dir entries))) as [cs [e|]].
  - rewrite app_nil_r. eauto.
Qed.

(** ** Accumulation of documents *)

Section AppendsOnly.
Variables p enc : string.

Lemma appends_only_ret {A} (a : A) : appends_only p enc (Eff.ret a).
Proof.
  exists (Returns a), [], []. intros docs lg.
  unfold Eff.ret. now rewrite !app_nil_r.
Qed.

Lemma appends_only_raise {A} (e : exn) :
  appends_only p enc (Eff.raise (A := A) e).
Proof.
  exists (Raises e), [], []. intros docs lg.
  unfold Eff.raise. now rewrite !app_nil_r.
Qed.

Lemma appends_only_lift {A} (r : outcome A) : appends_only p enc (Eff.lift r).
Proof.
  exists r, [], []. intros docs lg.
  unfold Eff.lift. now rewrite !app_nil_r.
Qed.

Lemma appends_only_emit (ev : event) : appends_only p enc (Eff.emit ev).
Proof.
  exists (Returns tt), [], [ev]. intros docs lg.
  unfold Eff.emit. simpl. now rewrite app_nil_r.
Qed.

Lemma appends_only_append_document (doc : string) :
  appends_only p enc (TextFileLoader.append_document doc).
Proof.
  exists (Returns tt), [doc], []. intros docs lg.
  unfold TextFileLoader.append_document, Eff.set_self. simpl. now rewrite app_nil_r.
Qed.

Lemma appends_only_bind {A B} (m : M TextFileLoader.t A)
    (k : A -> M TextFileLoader.t B) :
  appends_only p enc m ->
  (forall a, appends_only p enc (k a)) ->
  appends_only p enc (Eff.bind m k).
Proof.
  intros (r & new & evs & Hm) Hk. destruct r as [a|e].
  - destruct (Hk a) as (r' & new' & evs' & Hka).
    exists r', (new ++ new'), (evs ++ evs'). intros docs lg.
    unfold Eff.bind. rewrite Hm, Hka. now rewrite !app_assoc.
  - exists (Raises e), new, evs. intros docs lg.
    unfold Eff.bind. now rewrite Hm.
Qed.

(** Reading [self] is harmless when what follows looks only at the path
    and the encoding. *)
Lemma appends_only_get_self {A}
    (k : TextFileLoader.t -> M TextFileLoader.t A) :
  (forall docs s,
      k (TextFileLoader.MkLoader docs p enc) s = k (TextFileLoader.MkLoader [] p enc) s) ->
  appends_only p enc (k (TextFileLoader.MkLoader [] p enc)) ->
  appends_only p enc (Eff.bind Eff.get_self k).
Proof.
  intros Hind (r & new & evs & Hk).
  exists r, new, evs. intros docs lg.
  unfold Eff.bind, Eff.get_self. simpl. now rewrite Hind, Hk.
Qed.

Lemma appends_only_for_each {A} (xs : list A)
    (body : A -> M TextFileLoader.t unit) :
  (forall x, appends_only p enc (body x)) ->
  appends_only p enc (Eff.for_each xs body).
Proof.
  intros Hbody. induction xs as [|x xs IH]; simpl.
  - apply appends_only_ret.
  - apply appends_only_bind; [apply Hbody | intros _; exact IH].
Qed.

Lemma appends_only_open_read (q e : string) (target : option node) :
  appends_only p enc (TextFileLoader.open_read q e target).
Proof.
  unfold TextFileLoader.open_read.
  apply appends_only_bind; [apply appends_only_emit|]. intros _.
  destruct target as [[rd | es]|];
    [apply appends_only_lift | apply appends_only_raise ..].
Qed.

Lemma appends_only_load_walked_file (root : string)
    (f : string * (string -> outcome string)) :
  appends_only p enc (TextFileLoader.load_walked_file root f).
Proof.
  destruct f as [file rd]. unfold TextFileLoader.load_walked_file.
  destruct (PyStr.endswith file ".txt"); [|apply appends_only_ret].
  apply appends_only_get_self; [reflexivity|]. simpl.
  apply appends_only_bind; [apply appends_only_open_read|].
  intros content. apply appends_only_append_document.
Qed.

Lemma appends_only_load_directory (fs : filesystem) :
  appends_only p enc (TextFileLoader.load_directory fs).
Proof.
  unfold TextFileLoader.load_directory.
  apply appends_only_get_self; [reflexivity|]. simpl.
  apply appends_only_bind; [apply appends_only_emit|]. intros _.
  apply appends_only_for_each. intros [[root dirs] files].
  unfold TextFileLoader.load_walked_dir.
  apply appends_only_for_each. intros f.
  apply appends_only_load_walked_file.
Qed.

Lemma appends_only_load_file (fs : filesystem) :
  appends_only p enc (TextFileLoader.load_file fs).
Proof.
  unfold TextFileLoader.load_file.
  apply appends_only_get_self; [reflexivity|]. simpl.
  apply appends_only_bind; [apply appends_only_open_read|].
  intros content. apply appends_only_append_document.
Qed.

Lemma appends_only_load (fs : filesystem) :
  appends_only p enc (TextFileLoader.load fs).
Proof.
  unfold TextFileLoader.load.
  apply appends_only_get_self; [reflexivity|]. simpl.
  apply appends_only_bind; [apply appends_only_emit|]. intros _.
  destruct (OsPath.isdir fs p); [apply appends_only_load_directory|].
  apply appends_only_bind; [apply appends_only_emit|]. intros _.
  destruct (OsPath.isfile fs p && PyStr.endswith p ".txt");
    [apply appends_only_load_file | apply appends_only_raise].
Qed.

End AppendsOnly.

(** C10. Both loaders accumulate. A [load_documents] that returns has
    appended what it loaded after the documents held before, which are kept
    as they were: for a [TextFileLoader] the content of the file, or the
    contents of the text files of the directory; for a [YouTubeLoader] one
    document ending with the transcript body. The list returned is the
    loader's list, and a second [load_documents] on the same loader, against
    the same file system or network, appends the same new documents once
    more, so each of them is in the returned list twice. A [load_documents]
    that raises has removed nothing either. *)
Theorem loads_accumulate :
  (forall (fs : filesystem) (l : TextFileLoader.t) (lg : list event),
      exists new : list string,
        match TextFileLoader.load_documents fs (St l lg) with
        | (Returns ds, s1) =>
            ds = TextFileLoader.documents l ++ new
            /\ TextFileLoader.documents (self s1) = ds
            /\ match fs (TextFileLoader.path l) with
               | Some (Dir entries) =>
                   map (fun f => snd f (TextFileLoader.encoding l))
                       (LoaderSpec.text_files (Dir entries))
                   = map Returns new
               | Some (File rd) =>
                   PyStr.endswith (TextFileLoader.path l) ".txt" = true
                   /\ [rd (TextFileLoader.encoding l)] = map Returns new
               | None => False
               end
            /\ forall lg2 : list event,
                exists s2,
                  TextFileLoader.load_documents fs (St (self s1) lg2)
                  = (Returns (TextFileLoader.documents l ++ new ++ new), s2)
                  /\ TextFileLoader.documents (self s2)
                     = TextFileLoader.documents l ++ new ++ new
        | (Raises _, s1) =>
            TextFileLoader.documents (self s1) = TextFileLoader.documents l ++ new
        end)
  /\ (forall (net : network) (l : YouTubeLoader.t) (lg : list event),
        exists new : list string,
          match YouTubeLoader.load_documents net (St l lg) with
          | (Returns ds, s1) =>
              ds = YouTubeLoader.documents l ++ new
              /\ length new = 1%nat
              /\ (exists (d : fetched_transcript) (heading : string),
                     LoaderSpec.fetched net (YouTubeLoader.video_id l) = Returns d
                     /\ new = [heading +:+ LoaderSpec.transcript_body d])
              /\ YouTubeLoader.documents (self s1) = ds
              /\ forall lg2 : list event,
                  exists s2,
                    YouTubeLoader.load_documents net (St (self s1) lg2)
                    = (Returns (YouTubeLoader.documents l ++ new ++ new), s2)
                    /\ YouTubeLoader.documents (self s2)
                       = YouTubeLoader.documents l ++ new ++ new
          | (Raises _, s1) =>
              new = []
              /\ YouTubeLoader.documents (self s1) = YouTubeLoader.documents l ++ new
          end).
Proof.
  split.
  - intros fs [docs p enc] lg.
    exists (snd (text_load_result fs p enc)).
    destruct (text_load_run fs docs p enc lg) as [lg' Hload].
    unfold TextFileLoader.load_documents, Eff.bind at 1. rewrite Hload.
    destruct (fst (text_load_result fs p enc)) as [[]|e] eqn:Hr; simpl;
      [|reflexivity].
    split; [reflexivity | split; [reflexivity|split]].
    + unfold text_load_result in *.
      destruct (fs p) as [[rd | entries]|]; simpl in *.
      * destruct (PyStr.endswith p ".txt"); [|discriminate Hr].
        split; [reflexivity|]. now destruct (rd enc).
      * pose proof (read_all_success enc (LoaderSpec.text_files (Dir entries)))
          as Hall.
        destruct (read_all enc (LoaderSpec.text_files (Dir entries))) as [cs [e|]];
          [discriminate Hr | now apply Hall].
      * discriminate Hr.
    + intros lg2.
      destruct (text_load_run fs (docs ++ snd (text_load_result fs p enc)) p enc lg2)
        as [lg3 Hload2].
      eexists. unfold Eff.bind at 1. rewrite Hload2, Hr. simpl.
      rewrite <- app_assoc. split; reflexivity.
  - intros net [u incl docs md0 vid] lg.
    pose proof (load_run net u incl vid) as Hload.
    destruct (load_result net u incl vid) as [[[r new] md] mlog] eqn:Hres.
    exists new. unfold YouTubeLoader.load_documents, Eff.bind at 1.
    rewrite Hload.
    assert (Hshape :
      match r with
      | Returns _ =>
          exists (d : fetched_transcript) (heading : string),
            LoaderSpec.fetched net vid = Returns d
            /\ new = [heading +:+ LoaderSpec.transcript_body d]
      | Raises _ => new = []
      end).
    { unfold load_result in Hres.
      destruct (LoaderSpec.fetched net vid) as [d|e0];
        [|injection Hres as <- <- _ _; reflexivity].
      assert (Hasm : forall m evs,
                 assemble_result u vid d m evs = (r, new, md, mlog) ->
                 match r with
                 | Returns _ =>
                     exists (d' : fetched_transcript) (heading : string),
                       Returns d = Returns d'
                       /\ new = [heading +:+ LoaderSpec.transcript_body d']
                 | Raises _ => new = []
                 end).
      { intros m evs Hm. unfold assemble_result in Hm.
        destruct m as [fields | | v]; injection Hm as <- <- _ _; try reflexivity.
        destruct (format_document_ends_with_transcript
                    (scalar_str (from_option id (JStr "Unknown") (fields !! "title")))
                    (scalar_str (from_option id (JStr "Unknown")
                                             (fields !! "author_name")))
                    vid u (LoaderSpec.transcript_body d)) as [heading Hh].
        exists d, heading. split; [reflexivity | now rewrite Hh]. }
      destruct incl.
      - destruct (metadata_response net u) as [m|e0].
        + exact (Hasm _ _ Hres).
        + destruct (is_exception e0); [exact (Hasm _ _ Hres)|].
          injection Hres as <- <- _ _. reflexivity.
      - injection Hres as <- <- _ _. exists d, "". split; reflexivity. }
    destruct r as [[]|e]; simpl.
    + destruct Hshape as (d & heading & Hf & ->).
      split; [reflexivity|]. split; [reflexivity|].
      split; [exists d, heading; split; [exact Hf | reflexivity]|].
      split; [reflexivity|].
      intros lg2. eexists.
      unfold Eff.bind at 1. rewrite Hload. simpl.
      rewrite <- app_assoc. split; reflexivity.
    + split; [exact Hshape | reflexivity].
Qed.

(** Two calls of [load_documents] on a loader of one file return the
    document twice. *)
Example load_documents_twice_text :
  let fs : filesystem :=
    fun p => if String.eqb p "lear.txt" then Some (File (fun _ => Returns "Nothing"))
             else None in
  let first :=
    TextFileLoader.load_documents fs
      (St (TextFileLoader.__init__ "lear.txt" "utf-8") []) in
  let second := TextFileLoader.load_documents fs (snd first) in
  fst first = Returns ["Nothing"]
  /\ fst second = Returns ["Nothing"; "Nothing"].
Proof. split; reflexivity. Qed.

Example load_documents_twice_youtube :
  let net :=
    MkNetwork (fun _ _ => Raises (Exn OSError "offline"))
              (fun _ _ => Returns (MkTranscript [MkSnippet "hello"; MkSnippet "world"])) in
  let l := YouTubeLoader.MkLoader "https://youtu.be/abc" false [] (JObject ∅) "abc" in
  let first := YouTubeLoader.load_documents net (St l []) in
  let second := YouTubeLoader.load_documents net (snd first) in
  fst first = Returns ["hello world"]
  /\ fst second = Returns ["hello world"; "hello world"].
Proof. split; reflexivity. Qed.

(** ** Further facts about the splitter *)

Example split_abcdefghij :
  CharacterTextSplitter.split (MkSplitter 4 1) "abcdefghij"
  = Returns ["abcd"; "defg"; "ghij"; "j"].
Proof. reflexivity. Qed.

(** X4. For a valid configuration every character of the text lies in a
    chunk: the character at index [j] is in chunk [k = j // stride], whose
    span [k * stride .. k * stride + chunk_size) holds [j], at position
    [j - k * stride] of that chunk. *)
Lemma split_covers_text (sp : CharacterTextSplitter.t) (text : string)
    (chunks : list string) (j : nat) (c : ascii) :
  SplitSpec.valid sp ->
  CharacterTextSplitter.split sp text = Returns chunks ->
  get j text = Some c ->
  let k := Z.to_nat (Z.of_nat j / SplitSpec.stride sp) in
  exists chunk : string,
    chunks !! k = Some chunk
    /\ Z.of_nat k * SplitSpec.stride sp <= Z.of_nat j
       < Z.of_nat k * SplitSpec.stride sp + chunk_size sp
    /\ get (j - Z.to_nat (Z.of_nat k * SplitSpec.stride sp)) chunk = Some c.
Proof.
  intros Hv Hsplit Hj k0. subst k0.
  assert (Hlen : (j < String.length text)%nat).
  { destruct (Nat.lt_ge_cases j (String.length text)) as [H|H]; [exact H|].
    apply get_None_iff in H. congruence. }
  destruct (split_valid_closed sp text Hv) as (Hclosed & _ & HN).
  set (s := SplitSpec.stride sp) in *.
  assert (Hs : 0 < s) by (destruct Hv; unfold s, SplitSpec.stride; lia).
  set (k := Z.to_nat (Z.of_nat j / s)).
  pose proof (Z.div_mod (Z.of_nat j) s ltac:(lia)) as Hdm.
  pose proof (Z.mod_pos_bound (Z.of_nat j) s Hs) as Hmod.
  pose proof (Z.div_pos (Z.of_nat j) s ltac:(lia) Hs) as Hdiv.
  assert (Hk : Z.of_nat k = Z.of_nat j / s) by (unfold k; lia).
  assert (HkN : (k < Z.to_nat (range_length 0 (PyStr.len text) s))%nat).
  { unfold PyStr.len in *. nia. }
  destruct (lookup_lt_is_Some_2 chunks k) as [chunk Hchunk].
  { rewrite Hclosed in Hsplit. injection Hsplit as <-.
    now rewrite !length_map, length_seq. }
  exists chunk.
  destruct (split_lookup sp text chunks k chunk Hv Hsplit Hchunk) as [-> _].
  fold s. destruct Hv as [Hsize [Hov Hlt]].
  assert (s <= chunk_size sp)
    by (unfold s, SplitSpec.stride; lia).
  split; [exact Hchunk|]. split; [nia|].
  rewrite get_substring.
  destruct (Nat.ltb_spec (j - Z.to_nat (Z.of_nat k * s))
                         (Z.to_nat (chunk_size sp)));
    [|nia].
  rewrite <- Hj. f_equal. nia.
Qed.

(** The example of the design document: a text of 2500 characters, split
    with the default sizes, gives four chunks, the last of 100 characters. *)
Lemma split_2500_characters (text : string) :
  String.length text = 2500%nat ->
  exists c0 c1 c2 c3 : string,
    CharacterTextSplitter.split (MkSplitter 1000 200) text
    = Returns [c0; c1; c2; c3]
    /\ String.length c0 = 1000%nat /\ String.length c1 = 1000%nat
    /\ String.length c2 = 900%nat /\ String.length c3 = 100%nat.
Proof.
  intros Hlen.
  assert (Hv : SplitSpec.valid (MkSplitter 1000 200))
    by (unfold SplitSpec.valid; simpl; lia).
  destruct (split_valid_closed _ text Hv) as (Hclosed & _ & _).
  assert (Hn : PyStr.len text = 2500) by (unfold PyStr.len; lia).
  rewrite Hn in Hclosed.
  change (Z.to_nat (range_length 0 2500
            (SplitSpec.stride (MkSplitter 1000 200))))
    with 4%nat in Hclosed.
  simpl in Hclosed.
  eexists _, _, _, _. split; [exact Hclosed|].
  change (SplitSpec.stride (MkSplitter 1000 200)) with 800.
  rewrite !slice_window by lia.
  rewrite !length_substring, Hlen. repeat split; reflexivity.
Qed.

(** * Further properties of the code *)

(** ** The splitter beyond valid configurations *)

(** The chunks in terms of plain substrings, for a positive chunk size and a
    positive stride (the overlap may be negative). *)
Lemma split_closed_nat (sp : CharacterTextSplitter.t) (text : string) :
  0 < chunk_size sp ->
  chunk_overlap sp < chunk_size sp ->
  let s := Z.to_nat (SplitSpec.stride sp) in
  let w := Z.to_nat (chunk_size sp) in
  exists N : nat,
    CharacterTextSplitter.split sp text
    = Returns (map (fun k => substring (k * s) w text) (seq 0 N))
    /\ (0 < s)%nat /\ (0 < w)%nat
    /\ (String.length text <= N * s)%nat
    /\ (forall k, (k < N)%nat -> (k * s < String.length text)%nat).
Proof.
  intros Hsize Hlt s w.
  assert (Hs : 0 < SplitSpec.stride sp) by (unfold SplitSpec.stride; lia).
  assert (Hn : 0 <= PyStr.len text) by (unfold PyStr.len; lia).
  destruct (range_length_bounds (PyStr.len text) (SplitSpec.stride sp) Hn Hs)
    as [HN0 HN].
  exists (Z.to_nat (range_length 0 (PyStr.len text) (SplitSpec.stride sp))).
  set (N := Z.to_nat (range_length 0 (PyStr.len text) (SplitSpec.stride sp))).
  assert (HNz : Z.of_nat N = range_length 0 (PyStr.len text) (SplitSpec.stride sp))
    by (unfold N; lia).
  rewrite <- HNz in HN. unfold PyStr.len in HN.
  split; [|repeat split; unfold s, w; nia].
  unfold CharacterTextSplitter.split, py_range.
  change (chunk_size sp - chunk_overlap sp) with (SplitSpec.stride sp).
  destruct (Z.eqb_spec (SplitSpec.stride sp) 0); [lia|]. fold N.
  f_equal. rewrite map_map. apply map_ext. intros k.
  replace (0 + Z.of_nat k * SplitSpec.stride sp)
    with (Z.of_nat k * SplitSpec.stride sp) by lia.
  rewrite slice_window by nia. f_equal. unfold s. nia.
Qed.

(** X1. A splitter that [__init__] returns never makes [split] raise, even
    with a chunk size that is zero or negative: the stride is positive, and
    the number of chunks is [len(text)] divided by the stride, rounded up. *)
Theorem split_returns_after_init (size overlap : Z)
    (sp : CharacterTextSplitter.t) (text : string) :
  CharacterTextSplitter.__init__ size overlap = Returns sp ->
  exists chunks : list string,
    CharacterTextSplitter.split sp text = Returns chunks
    /\ 0 < SplitSpec.stride sp
    /\ Z.of_nat (length chunks)
       = (PyStr.len text + SplitSpec.stride sp - 1) / SplitSpec.stride sp.
Proof.
  unfold CharacterTextSplitter.__init__.
  destruct (Z.ltb_spec overlap size) as [Hlt|]; [|discriminate].
  intros [= <-].
  set (sp := MkSplitter size overlap).
  assert (Hs : 0 < SplitSpec.stride sp) by (unfold SplitSpec.stride; simpl; lia).
  assert (Hn : 0 <= PyStr.len text) by (unfold PyStr.len; lia).
  unfold CharacterTextSplitter.split, py_range.
  change (chunk_size sp - chunk_overlap sp) with (SplitSpec.stride sp).
  destruct (Z.eqb_spec (SplitSpec.stride sp) 0); [lia|].
  eexists. split; [reflexivity|]. split; [exact Hs|].
  rewrite !length_map, length_seq.
  destruct (range_length_bounds _ _ Hn Hs) as [HN0 HN].
  rewrite Z2Nat.id by exact HN0.
  set (N := range_length 0 (PyStr.len text) (SplitSpec.stride sp)) in *.
  apply Z.div_unique_pos
    with (r := PyStr.len text + SplitSpec.stride sp - 1 - SplitSpec.stride sp * N);
    nia.
Qed.

Lemma split_returns_after_init_witness :
  exists chunks : list string,
    CharacterTextSplitter.split (MkSplitter (-1) (-5)) "abcdefghij" = Returns chunks
    /\ 0 < SplitSpec.stride (MkSplitter (-1) (-5))
    /\ Z.of_nat (length chunks)
       = (PyStr.len "abcdefghij" + SplitSpec.stride (MkSplitter (-1) (-5)) - 1)
         / SplitSpec.stride (MkSplitter (-1) (-5)).
Proof.
  apply (split_returns_after_init (-1) (-5) (MkSplitter (-1) (-5)) "abcdefghij").
  reflexivity.
Defined.

(** X2. For a valid configuration no chunk is empty, none is longer than
    [chunk_size], and a chunk shorter than [chunk_size] ends where the text
    ends. *)
Theorem split_chunk_lengths (sp : CharacterTextSplitter.t) (text : string)
    (chunks : list string) (k : nat) (c : string) :
  SplitSpec.valid sp ->
  CharacterTextSplitter.split sp text = Returns chunks ->
  chunks !! k = Some c ->
  1 <= Z.of_nat (String.length c) <= chunk_size sp
  /\ (Z.of_nat (String.length c) < chunk_size sp ->
      Z.of_nat k * SplitSpec.stride sp + Z.of_nat (String.length c)
      = PyStr.len text).
Proof.
  intros Hv Hsplit Hk.
  destruct (split_lookup sp text chunks k c Hv Hsplit Hk) as [-> Hlt].
  destruct Hv as [Hsize [Hov Hov']].
  assert (0 < SplitSpec.stride sp) by (unfold SplitSpec.stride; lia).
  unfold PyStr.len in *. rewrite length_substring. split; [nia|]. intros Hshort. nia.
Qed.

Lemma split_chunk_lengths_witness :
  1 <= Z.of_nat (String.length "j") <= 4
  /\ (Z.of_nat (String.length "j") < 4 ->
      Z.of_nat 3 * 3 + Z.of_nat (String.length "j") = PyStr.len "abcdefghij").
Proof.
  apply (split_chunk_lengths (MkSplitter 4 1) "abcdefghij"
           ["abcd"; "defg"; "ghij"; "j"] 3 "j").
  - unfold SplitSpec.valid; simpl; lia.
  - reflexivity.
  - reflexivity.
Defined.

Lemma length_append (a b : string) :
  String.length (a +:+ b) = (String.length a + String.length b)%nat.
Proof.
  induction a as [|c a IH]; [reflexivity|].
  change (S (String.length (a +:+ b)) = S (String.length a + String.length b)).
  now rewrite IH.
Qed.

Lemma append_nil_r (s : string) : s +:+ "" = s.
Proof.
  induction s as [|c s IH]; [reflexivity|].
  change (String c (s +:+ "") = String c s). now rewrite IH.
Qed.

Lemma join_empty_cons (x : string) (xs : list string) :
  PyStr.join "" (x :: xs) = x +:+ PyStr.join "" xs.
Proof.
  destruct xs as [|y ys]; simpl; [now rewrite append_nil_r | reflexivity].
Qed.

Lemma get_append (a b : string) (p : nat) :
  get p (a +:+ b)
  = if (p <? String.length a)%nat then get p a else get (p - String.length a) b.
Proof.
  destruct (Nat.ltb_spec p (String.length a)) as [Hlt|Hge].
  - symmetry. now apply append_correct1.
  - rewrite (append_correct2 a b (p - String.length a)). f_equal. lia.
Qed.

Lemma substring_full (t : string) (n : nat) :
  (String.length t <= n)%nat -> substring 0 n t = t.
Proof.
  intros Hn. apply get_correct; intros p. rewrite get_substring.
  rewrite Nat.add_0_r.
  destruct (Nat.ltb_spec p n); [reflexivity|].
  symmetry. apply get_None_iff. lia.
Qed.

(** Two adjacent pieces of a text make one piece. *)
Lemma substring_adjacent (t : string) (a m m' : nat) :
  substring a m t +:+ substring (a + m) m' t = substring a (m + m') t.
Proof.
  apply get_correct; intros p.
  rewrite get_append, length_substring, !get_substring.
  destruct (Nat.ltb_spec p (Nat.min m (String.length t - a))) as [H1|H1].
  - destruct (Nat.ltb_spec p m); [|lia].
    destruct (Nat.ltb_spec p (m + m')); [reflexivity | lia].
  - destruct (Nat.ltb_spec (p - Nat.min m (String.length t - a)) m') as [H2|H2];
      destruct (Nat.ltb_spec p (m + m')) as [H3|H3]; try reflexivity.
    + destruct (Nat.le_gt_cases m (String.length t - a)).
      * f_equal. lia.
      * transitivity (@None ascii); [|symmetry]; apply get_None_iff; lia.
    + apply get_None_iff. lia.
    + symmetry. apply get_None_iff. lia.
Qed.

Lemma join_strides (t : string) (s n k0 : nat) :
  PyStr.join "" (map (fun k => substring (k * s) s t) (seq k0 n))
  = substring (k0 * s) (n * s) t.
Proof.
  revert k0. induction n as [|n IH]; intros k0.
  - simpl. now rewrite substring_empty_length.
  - change (seq k0 (S n)) with (k0 :: seq (S k0) n).
    rewrite map_cons, join_empty_cons, IH.
    replace (S k0 * s)%nat with (k0 * s + s)%nat by lia.
    rewrite substring_adjacent. f_equal.
Qed.

(** X3. For a valid configuration the text can be put together again from
    the chunks: the first [stride] characters of every chunk, joined with
    nothing between them, are the text; with no overlap the chunks
    themselves are. *)
Theorem split_strides_rebuild_text (sp : CharacterTextSplitter.t)
    (text : string) (chunks : list string) :
  SplitSpec.valid sp ->
  CharacterTextSplitter.split sp text = Returns chunks ->
  PyStr.join ""
    (map (SplitSpec.first_chars (Z.to_nat (SplitSpec.stride sp))) chunks)
  = text
  /\ (chunk_overlap sp = 0 -> PyStr.join "" chunks = text).
Proof.
  intros [Hsize [Hov Hlt]] Hsplit.
  destruct (split_closed_nat sp text Hsize Hlt) as (N & Hclosed & Hs & Hw & HN & _).
  rewrite Hclosed in Hsplit. injection Hsplit as <-.
  set (s := Z.to_nat (SplitSpec.stride sp)) in *.
  set (w := Z.to_nat (chunk_size sp)) in *.
  assert (Hsw : (s <= w)%nat) by (unfold s, w, SplitSpec.stride; lia).
  assert (Hfirst :
    map (SplitSpec.first_chars s) (map (fun k => substring (k * s) w text) (seq 0 N))
    = map (fun k => substring (k * s) s text) (seq 0 N)).
  { rewrite map_map. apply map_ext. intros k.
    unfold SplitSpec.first_chars. rewrite substring_substring.
    f_equal; lia. }
  split.
  - rewrite Hfirst, join_strides. simpl. now apply substring_full.
  - intros Hzero.
    assert (w = s) as -> by (unfold s, w, SplitSpec.stride; lia).
    rewrite join_strides. simpl. now apply substring_full.
Qed.

Lemma split_strides_rebuild_text_witness :
  PyStr.join "" (map (SplitSpec.first_chars 3) ["abcd"; "defg"; "ghij"; "j"])
  = "abcdefghij"
  /\ (chunk_overlap (MkSplitter 4 1) = 0
      -> PyStr.join "" ["abcd"; "defg"; "ghij"; "j"] = "abcdefghij").
Proof.
  apply (split_strides_rebuild_text (MkSplitter 4 1) "abcdefghij"
           ["abcd"; "defg"; "ghij"; "j"]).
  - unfold SplitSpec.valid; simpl; lia.
  - reflexivity.
Defined.

(** X5. For a valid configuration a non-empty text no longer than the
    stride comes back as one chunk, the text itself. *)
Theorem split_short_text_single_chunk (sp : CharacterTextSplitter.t)
    (text : string) :
  SplitSpec.valid sp ->
  0 < PyStr.len text <= SplitSpec.stride sp ->
  CharacterTextSplitter.split sp text = Returns [text].
Proof.
  intros [Hsize [Hov Hlt]] [Hpos Hshort].
  destruct (split_closed_nat sp text Hsize Hlt) as (N & Hclosed & Hs & Hw & HN & Hk).
  set (s := Z.to_nat (SplitSpec.stride sp)) in *.
  set (w := Z.to_nat (chunk_size sp)) in *.
  unfold PyStr.len in *.
  assert (Hlen : (String.length text <= s)%nat) by (unfold s; lia).
  assert (N = 1%nat) as ->.
  { destruct N as [|[|N]]; [lia | reflexivity |].
    specialize (Hk 1%nat ltac:(lia)). lia. }
  rewrite Hclosed. simpl. do 2 f_equal.
  apply substring_full. unfold s, w, SplitSpec.stride in *. lia.
Qed.

Lemma split_short_text_single_chunk_witness :
  CharacterTextSplitter.split (MkSplitter 1000 200) "Nothing will come of nothing."
  = Returns ["Nothing will come of nothing."].
Proof.
  apply (split_short_text_single_chunk (MkSplitter 1000 200)).
  - unfold SplitSpec.valid; simpl; lia.
  - vm_compute. split; [reflexivity | discriminate].
Defined.

Lemma length_join_windows (t : string) (s w n k0 : nat) :
  (w <= s)%nat ->
  (String.length
     (PyStr.join "" (map (fun k => substring (k * s) w t) (seq k0 n)))
   <= String.length t - k0 * s)%nat.
Proof.
  intros Hws. revert k0. induction n as [|n IH]; intros k0.
  - simpl. lia.
  - change (seq k0 (S n)) with (k0 :: seq (S k0) n).
    rewrite map_cons, join_empty_cons, length_append, length_substring.
    specialize (IH (S k0)). lia.
Qed.

(** X6. [__init__] accepts a negative overlap. The stride is then larger
    than the chunk size, and for a text longer than one chunk the chunks
    together have fewer characters than the text: the characters between
    two windows are in no chunk. *)
Theorem split_negative_overlap_loses_text (sp : CharacterTextSplitter.t)
    (text : string) :
  0 < chunk_size sp ->
  chunk_overlap sp < 0 ->
  chunk_size sp < PyStr.len text ->
  CharacterTextSplitter.__init__ (chunk_size sp) (chunk_overlap sp) = Returns sp
  /\ exists chunks : list string,
      CharacterTextSplitter.split sp text = Returns chunks
      /\ (String.length (PyStr.join "" chunks) < String.length text)%nat.
Proof.
  intros Hsize Hneg Hlong. split.
  - unfold CharacterTextSplitter.__init__.
    destruct (Z.ltb_spec (chunk_overlap sp) (chunk_size sp)); [|lia].
    now destruct sp.
  - destruct (split_closed_nat sp text Hsize ltac:(lia))
      as (N & Hclosed & Hs & Hw & HN & Hk).
    set (s := Z.to_nat (SplitSpec.stride sp)) in *.
    set (w := Z.to_nat (chunk_size sp)) in *.
    unfold PyStr.len in Hlong.
    assert (Hws : (w < s)%nat) by (unfold s, w, SplitSpec.stride; lia).
    eexists. split; [exact Hclosed|].
    destruct N as [|N]; [lia|].
    change (seq 0 (S N)) with (0%nat :: seq 1 N).
    rewrite map_cons, join_empty_cons, length_append, length_substring.
    pose proof (length_join_windows text s w N 1 ltac:(lia)) as Hrest.
    unfold w in *. lia.
Qed.

Lemma split_negative_overlap_loses_text_witness :
  CharacterTextSplitter.__init__ 3 (-2) = Returns (MkSplitter 3 (-2))
  /\ exists chunks : list string,
      CharacterTextSplitter.split (MkSplitter 3 (-2)) "abcdefghij" = Returns chunks
      /\ (String.length (PyStr.join "" chunks) < String.length "abcdefghij")%nat.
Proof.
  apply (split_negative_overlap_loses_text (MkSplitter 3 (-2)) "abcdefghij");
    vm_compute; reflexivity.
Defined.

Example split_negative_overlap_example :
  CharacterTextSplitter.split (MkSplitter 3 (-2)) "abcdefghij"
  = Returns ["abc"; "fgh"].
Proof. reflexivity. Qed.

Lemma split_total (sp : CharacterTextSplitter.t) (text : string) :
  chunk_overlap sp < chunk_size sp ->
  exists chunks, CharacterTextSplitter.split sp text = Returns chunks.
Proof.
  intros Hlt. unfold CharacterTextSplitter.split, py_range.
  destruct (Z.eqb_spec (chunk_size sp - chunk_overlap sp) 0); [lia|].
  eexists. reflexivity.
Qed.

(** X7. For a splitter with [chunk_overlap < chunk_size], [split_texts]
    returns the chunks of the first text, then those of the second, and so
    on: the concatenation, in order, of what [split] returns for each text. *)
Theorem split_texts_concatenates (sp : CharacterTextSplitter.t)
    (texts : list string) :
  chunk_overlap sp < chunk_size sp ->
  exists css : list (list string),
    Forall2 (fun text cs => CharacterTextSplitter.split sp text = Returns cs)
            texts css
    /\ CharacterTextSplitter.split_texts sp texts = Returns (concat css).
Proof.
  intros Hlt. induction texts as [|text texts (css & Hall & Hrest)].
  - exists []. split; [constructor | reflexivity].
  - destruct (split_total sp text Hlt) as [cs Hcs].
    exists (cs :: css). split; [now constructor|].
    simpl. now rewrite Hcs, Hrest.
Qed.

Lemma split_texts_concatenates_witness :
  exists css : list (list string),
    Forall2 (fun text cs =>
               CharacterTextSplitter.split (MkSplitter 4 1) text = Returns cs)
            ["abcdefg"; ""; "xy"] css
    /\ CharacterTextSplitter.split_texts (MkSplitter 4 1) ["abcdefg"; ""; "xy"]
       = Returns (concat css).
Proof.
  apply (split_texts_concatenates (MkSplitter 4 1) ["abcdefg"; ""; "xy"]).
  simpl. lia.
Defined.

Example split_texts_example :
  CharacterTextSplitter.split_texts (MkSplitter 4 1) ["abcdefg"; ""; "xy"]
  = Returns ["abcd"; "defg"; "g"; "xy"].
Proof. reflexivity. Qed.

Lemma split_covers_text_witness :
  let k := Z.to_nat (Z.of_nat 7 / SplitSpec.stride (MkSplitter 4 1)) in
  exists chunk : string,
    ["abcd"; "defg"; "ghij"; "j"] !! k = Some chunk
    /\ Z.of_nat k * SplitSpec.stride (MkSplitter 4 1) <= Z.of_nat 7
       < Z.of_nat k * SplitSpec.stride (MkSplitter 4 1) + chunk_size (MkSplitter 4 1)
    /\ get (7 - Z.to_nat (Z.of_nat k * SplitSpec.stride (MkSplitter 4 1))) chunk
       = Some "h"%char.
Proof.
  apply (split_covers_text (MkSplitter 4 1) "abcdefghij"
           ["abcd"; "defg"; "ghij"; "j"] 7 "h"%char).
  - unfold SplitSpec.valid; simpl; lia.
  - reflexivity.
  - reflexivity.
Defined.

(** ** TextFileLoader: single files, unreadable files, listing order *)

(** X8. On a path that names a file and ends in [".txt"], [load] checks the
    path, opens the file once and, if the read succeeds, appends its whole
    content as one document; if the read raises, that exception comes out of
    [load] as it is and the loader keeps the documents it had. *)
Theorem load_single_text_file (fs : filesystem) (l : TextFileLoader.t)
    (lg : list event) (rd : string -> outcome string) :
  fs (TextFileLoader.path l) = Some (File rd) ->
  PyStr.endswith (TextFileLoader.path l) ".txt" = true ->
  let p := TextFileLoader.path l in
  let enc := TextFileLoader.encoding l in
  let calls := [EvIsDir p; EvIsFile p; EvOpen p enc] in
  TextFileLoader.load fs (St l lg)
  = match rd enc with
    | Returns content =>
        (Returns tt,
         St (TextFileLoader.MkLoader (TextFileLoader.documents l ++ [content]) p enc)
            (lg ++ calls))
    | Raises e => (Raises e, St l (lg ++ calls))
    end.
Proof.
  intros Hfile Htxt p enc calls.
  unfold TextFileLoader.load, TextFileLoader.load_file, TextFileLoader.open_read,
    TextFileLoader.append_document, OsPath.isdir, OsPath.isfile.
  run_eff. rewrite Hfile. simpl. rewrite Htxt. simpl. rewrite Hfile.
  fold p enc. rewrite <- !app_assoc. simpl.
  destruct (rd enc); reflexivity.
Qed.

Lemma load_single_text_file_witness :
  let fs : filesystem :=
    fun p => if String.eqb p "lear.txt"
             then Some (File (fun enc =>
                    if String.eqb enc "utf-8" then Returns "Nothing"
                    else Raises (Exn UnicodeDecodeError "invalid start byte")))
             else None in
  TextFileLoader.load fs (St (TextFileLoader.MkLoader ["old"] "lear.txt" "utf-8") [])
  = (Returns tt,
     St (TextFileLoader.MkLoader ["old"; "Nothing"] "lear.txt" "utf-8")
        [EvIsDir "lear.txt"; EvIsFile "lear.txt"; EvOpen "lear.txt" "utf-8"]).
Proof.
  intros fs.
  apply (load_single_text_file fs
           (TextFileLoader.MkLoader ["old"] "lear.txt" "utf-8") []
           (fun enc => if String.eqb enc "utf-8" then Returns "Nothing"
                       else Raises (Exn UnicodeDecodeError "invalid start byte")));
    reflexivity.
Defined.

(** X9. When a text file of the directory cannot be read, [load] raises the
    exception of that read; the documents of the text files walked before it
    have been appended and stay in the loader, and nothing of the files
    after it is appended. *)
Theorem load_directory_stops_at_unreadable_file (fs : filesystem)
    (l : TextFileLoader.t) (lg : list event) (entries : list (string * node))
    (before after : list (string * (string -> outcome string)))
    (f : string * (string -> outcome string)) (docs : list string) (e : exn) :
  fs (TextFileLoader.path l) = Some (Dir entries) ->
  LoaderSpec.text_files (Dir entries) = before ++ f :: after ->
  map (fun g => snd g (TextFileLoader.encoding l)) before = map Returns docs ->
  snd f (TextFileLoader.encoding l) = Raises e ->
  exists lg',
    TextFileLoader.load fs (St l lg)
    = (Raises e,
       St (TextFileLoader.MkLoader (TextFileLoader.documents l ++ docs)
                                   (TextFileLoader.path l)
                                   (TextFileLoader.encoding l)) lg').
Proof.
  intros Hdir Hfiles Hread Hf.
  unfold TextFileLoader.load, TextFileLoader.load_directory, OsPath.isdir. run_eff.
  rewrite Hdir. simpl. rewrite ?Hdir.
  destruct (outer_loop_read_all (os_walk (TextFileLoader.path l) (Dir entries)) l
              ((lg ++ [EvIsDir (TextFileLoader.path l)])
               ++ [EvWalk (TextFileLoader.path l)])) as [lg' Hrun].
  rewrite os_walk_files in Hrun.
  change (filter LoaderSpec.is_text_file (LoaderSpec.contained_files (Dir entries)))
    with (LoaderSpec.text_files (Dir entries)) in Hrun.
  rewrite Hfiles, (read_all_stops _ before f after docs e Hread Hf) in Hrun.
  exists lg'. exact Hrun.
Qed.

Lemma load_directory_stops_at_unreadable_file_witness :
  let bad : string -> outcome string :=
    fun _ => Raises (Exn UnicodeDecodeError "invalid start byte") in
  let entries :=
    [("a.txt", File (fun _ => Returns "alpha"));
     ("b.txt", File bad);
     ("c.txt", File (fun _ => Returns "gamma"))] in
  let fs : filesystem :=
    fun p => if String.eqb p "data" then Some (Dir entries) else None in
  exists lg',
    TextFileLoader.load fs (St (TextFileLoader.__init__ "data" "utf-8") [])
    = (Raises (Exn UnicodeDecodeError "invalid start byte"),
       St (TextFileLoader.MkLoader ["alpha"] "data" "utf-8") lg').
Proof.
  intros bad entries fs.
  apply (load_directory_stops_at_unreadable_file fs
           (TextFileLoader.__init__ "data" "utf-8") [] entries
           [("a.txt", fun _ => Returns "alpha")]
           [("c.txt", fun _ => Returns "gamma")]
           ("b.txt", bad) ["alpha"]
           (Exn UnicodeDecodeError "invalid start byte"));
    reflexivity.
Defined.

Lemma text_files_permutation (entries entries' : list (string * node)) :
  entries ≡ₚ entries' ->
  LoaderSpec.text_files (Dir entries) ≡ₚ LoaderSpec.text_files (Dir entries').
Proof.
  intros Hperm. unfold LoaderSpec.text_files.
  rewrite !contained_files_flat_map.
  apply filter_Permutation.
  apply Permutation_app; unfold filenames; now apply Permutation_flat_map.
Qed.

Lemma load_directory_readable (fs : filesystem) (l : TextFileLoader.t)
    (lg : list event) (entries : list (string * node)) (docs : list string) :
  fs (TextFileLoader.path l) = Some (Dir entries) ->
  map (fun f => snd f (TextFileLoader.encoding l))
      (LoaderSpec.text_files (Dir entries))
  = map Returns docs ->
  exists lg',
    TextFileLoader.load fs (St l lg)
    = (Returns tt,
       St (TextFileLoader.MkLoader (TextFileLoader.documents l ++ docs)
                                   (TextFileLoader.path l)
                                   (TextFileLoader.encoding l)) lg').
Proof.
  intros Hdir Hread.
  unfold TextFileLoader.load, TextFileLoader.load_directory, OsPath.isdir. run_eff.
  rewrite Hdir. simpl. rewrite ?Hdir.
  unfold LoaderSpec.text_files in Hread.
  rewrite <- (os_walk_files (Dir entries) (TextFileLoader.path l)) in Hread.
  destruct (outer_loop_readable (os_walk (TextFileLoader.path l) (Dir entries))
              docs l
              ((lg ++ [EvIsDir (TextFileLoader.path l)])
               ++ [EvWalk (TextFileLoader.path l)])
              Hread) as [lg' Hrun].
  exists lg'. exact Hrun.
Qed.

(** X10. The order in which the operating system lists the top directory
    changes only the order of the documents: if the directory loads with
    one listing, it loads with any other listing of the same entries, and
    the two lists of new documents are permutations of each other. *)
Theorem load_directory_listing_order (fs fs' : filesystem)
    (l : TextFileLoader.t) (lg : list event)
    (entries entries' : list (string * node)) (docs : list string) :
  fs (TextFileLoader.path l) = Some (Dir entries) ->
  fs' (TextFileLoader.path l) = Some (Dir entries') ->
  entries ≡ₚ entries' ->
  map (fun f => snd f (TextFileLoader.encoding l))
      (LoaderSpec.text_files (Dir entries))
  = map Returns docs ->
  exists (docs' : list string) (lg1 lg2 : list event),
    TextFileLoader.load fs (St l lg)
    = (Returns tt,
       St (TextFileLoader.MkLoader (TextFileLoader.documents l ++ docs)
                                   (TextFileLoader.path l)
                                   (TextFileLoader.encoding l)) lg1)
    /\ TextFileLoader.load fs' (St l lg)
       = (Returns tt,
          St (TextFileLoader.MkLoader (TextFileLoader.documents l ++ docs')
                                      (TextFileLoader.path l)
                                      (TextFileLoader.encoding l)) lg2)
    /\ docs ≡ₚ docs'.
Proof.
  intros Hdir Hdir' Hperm Hread.
  pose proof (text_files_permutation entries entries' Hperm) as Hfiles.
  apply (Permutation_map (fun f => snd f (TextFileLoader.encoding l))) in Hfiles.
  rewrite Hread in Hfiles. symmetry in Hfiles.
  apply Permutation_map_inv in Hfiles as (docs' & Hread' & Hdocs).
  destruct (load_directory_readable fs l lg entries docs Hdir Hread) as [lg1 H1].
  destruct (load_directory_readable fs' l lg entries' docs' Hdir' Hread')
    as [lg2 H2].
  exists docs', lg1, lg2. auto.
Qed.

Lemma load_directory_listing_order_witness :
  let a := ("a.txt", File (fun _ => Returns "alpha")) in
  let b := ("b.txt", File (fun _ => Returns "beta")) in
  let m := ("notes.md", File (fun _ => Returns "# notes")) in
  let fs : filesystem :=
    fun p => if String.eqb p "data" then Some (Dir [a; m; b]) else None in
  let fs' : filesystem :=
    fun p => if String.eqb p "data" then Some (Dir [b; a; m]) else None in
  let l := TextFileLoader.__init__ "data" "utf-8" in
  exists (docs' : list string) (lg1 lg2 : list event),
    TextFileLoader.load fs (St l [])
    = (Returns tt, St (TextFileLoader.MkLoader ["alpha"; "beta"] "data" "utf-8") lg1)
    /\ TextFileLoader.load fs' (St l [])
       = (Returns tt, St (TextFileLoader.MkLoader docs' "data" "utf-8") lg2)
    /\ ["alpha"; "beta"] ≡ₚ docs'.
Proof.
  intros a b m fs fs' l.
  apply (load_directory_listing_order fs fs' l [] [a; m; b] [b; a; m]
           ["alpha"; "beta"]).
  - reflexivity.
  - reflexivity.
  - change [a; m; b] with ([a; m] ++ [b]). change [b; a; m] with ([b] ++ [a; m]).
    apply Permutation_app_comm.
  - reflexivity.
Defined.

(** ** YouTubeLoader: the remaining paths of a load *)

(** X11. Without metadata, and with the transcript of the preferred
    language available, [load] asks for that transcript once and for nothing
    else (no HTTP request, no retry), appends the bare transcript body as the
    document and leaves [metadata] as it was. *)
Theorem load_without_metadata (net : network) (l : YouTubeLoader.t)
    (lg : list event) (d : fetched_transcript) :
  YouTubeLoader.include_metadata l = false ->
  transcript_fetch net (YouTubeLoader.video_id l) (Some ["en"]) = Returns d ->
  YouTubeLoader.load net (St l lg)
  = (Returns tt,
     St (YouTubeLoader.MkLoader (YouTubeLoader.url l) false
           (YouTubeLoader.documents l ++ [PyStr.join " " (map text (snippets d))])
           (YouTubeLoader.metadata l) (YouTubeLoader.video_id l))
        (lg ++ [EvTranscriptFetch (YouTubeLoader.video_id l) (Some ["en"])])).
Proof.
  intros Hincl Hen. destruct l as [u incl docs md vid]. simpl in *. subst incl.
  unfold YouTubeLoader.load, Eff.try_except at 1. unfold Eff.bind at 1.
  rewrite get_transcript_run.
  unfold LoaderSpec.fetched, LoaderSpec.transcript_calls. simpl. rewrite Hen.
  reflexivity.
Qed.

Lemma load_without_metadata_witness :
  let net :=
    MkNetwork (fun _ _ => Raises (Exn OSError "offline"))
              (fun _ _ => Returns (MkTranscript [MkSnippet "hello"; MkSnippet "world"])) in
  let l := YouTubeLoader.MkLoader "https://youtu.be/abc" false ["earlier"]
                                  (JObject ∅) "abc" in
  YouTubeLoader.load net (St l [])
  = (Returns tt,
     St (YouTubeLoader.MkLoader "https://youtu.be/abc" false
           ["earlier"; "hello world"] (JObject ∅) "abc")
        [EvTranscriptFetch "abc" (Some ["en"])]).
Proof.
  intros net l.
  apply (load_without_metadata net l []
           (MkTranscript [MkSnippet "hello"; MkSnippet "world"]));
    reflexivity.
Defined.

(** X12. When the request for the preferred language raises and the retry
    for any language returns, [_get_transcript] returns the body of the
    retry's transcript, its segment texts joined by single spaces; the first
    exception is dropped, the loader is unchanged and exactly the two
    requests have been made, in that order. *)
Theorem get_transcript_falls_back (net : network) (l : YouTubeLoader.t)
    (lg : list event) (e : exn) (d : fetched_transcript) :
  transcript_fetch net (YouTubeLoader.video_id l) (Some ["en"]) = Raises e ->
  transcript_fetch net (YouTubeLoader.video_id l) None = Returns d ->
  YouTubeLoader._get_transcript net (St l lg)
  = (Returns (PyStr.join " " (map text (snippets d))),
     St l (lg ++ [EvTranscriptFetch (YouTubeLoader.video_id l) (Some ["en"]);
                  EvTranscriptFetch (YouTubeLoader.video_id l) None])).
Proof.
  intros Hen Hany. rewrite get_transcript_run.
  unfold LoaderSpec.fetched, LoaderSpec.transcript_calls.
  rewrite Hen, Hany. reflexivity.
Qed.

Lemma get_transcript_falls_back_witness :
  let net :=
    MkNetwork
      (fun _ _ => Raises (Exn OSError "offline"))
      (fun _ langs =>
         match langs with
         | Some _ => Raises (Exn (OtherException "NoTranscriptFound") "no en")
         | None => Returns (MkTranscript [MkSnippet "hola"; MkSnippet "mundo"])
         end) in
  let l := YouTubeLoader.MkLoader "https://youtu.be/abc" true [] (JObject ∅) "abc" in
  YouTubeLoader._get_transcript net (St l [])
  = (Returns "hola mundo",
     St l [EvTranscriptFetch "abc" (Some ["en"]); EvTranscriptFetch "abc" None]).
Proof.
  intros net l.
  apply (get_transcript_falls_back net l []
           (Exn (OtherException "NoTranscriptFound") "no en")
           (MkTranscript [MkSnippet "hola"; MkSnippet "mundo"]));
    reflexivity.
Defined.

Lemma load_with_metadata_step (net : network) (u vid : string)
    (docs : list string) (md0 : json) (lg : list event)
    (d : fetched_transcript) (r : response) (m : json) :
  LoaderSpec.fetched net vid = Returns d ->
  http_get net (YouTubeLoader.oembed_url u) 10 = Returns r ->
  raise_for_status r = None ->
  json_body r = Returns m ->
  let calls := LoaderSpec.transcript_calls net vid
               ++ [EvHttpGet (YouTubeLoader.oembed_url u) 10] in
  YouTubeLoader.load net (St (YouTubeLoader.MkLoader u true docs md0 vid) lg)
  = match m with
    | JObject fields =>
        (Returns tt,
         St (YouTubeLoader.MkLoader u true
               (docs ++ [YouTubeLoader.format_document
                           (scalar_str (from_option id (JStr "Unknown")
                                                    (fields !! "title")))
                           (scalar_str (from_option id (JStr "Unknown")
                                                    (fields !! "author_name")))
                           vid u (LoaderSpec.transcript_body d)])
               m vid)
            (lg ++ calls))
    | _ =>
        (Raises (Exn ValueError
                     ("Failed to load YouTube video: "
                        +:+ ("'" +:+ type_name m
                               +:+ "' object has no attribute 'get'"))),
         St (YouTubeLoader.MkLoader u true docs m vid) (lg ++ calls))
    end.
Proof.
  intros Hf Hget Hst Hbody calls.
  unfold YouTubeLoader.load.
  unfold Eff.try_except at 1. unfold Eff.bind at 1.
  rewrite get_transcript_run. simpl. rewrite Hf.
  unfold YouTubeLoader._get_video_metadata. run_eff.
  rewrite Hget. simpl. rewrite Hst, Hbody. simpl.
  unfold calls. rewrite <- !app_assoc.
  destruct m as [fields | | v]; reflexivity.
Qed.

(** X13. With metadata requested, the transcript retrieved and a metadata
    response that decodes to a JSON object, [load] appends the template
    filled with the object's [title] and [author_name], each replaced by
    ["Unknown"] when the key is missing; [metadata] becomes that object, so
    [get_metadata] returns it; the HTTP request is the last call made. *)
Theorem load_with_metadata (net : network) (l : YouTubeLoader.t)
    (lg : list event) (d : fetched_transcript) (r : response)
    (fields : gmap string json_scalar) :
  YouTubeLoader.include_metadata l = true ->
  LoaderSpec.fetched net (YouTubeLoader.video_id l) = Returns d ->
  http_get net (YouTubeLoader.oembed_url (YouTubeLoader.url l)) 10 = Returns r ->
  raise_for_status r = None ->
  json_body r = Returns (JObject fields) ->
  let field key := scalar_str (from_option id (JStr "Unknown") (fields !! key)) in
  let doc :=
    YouTubeLoader.format_document (field "title") (field "author_name")
      (YouTubeLoader.video_id l) (YouTubeLoader.url l)
      (LoaderSpec.transcript_body d) in
  let s' :=
    St (YouTubeLoader.MkLoader (YouTubeLoader.url l) true
          (YouTubeLoader.documents l ++ [doc]) (JObject fields)
          (YouTubeLoader.video_id l))
       (lg ++ LoaderSpec.transcript_calls net (YouTubeLoader.video_id l)
           ++ [EvHttpGet (YouTubeLoader.oembed_url (YouTubeLoader.url l)) 10]) in
  YouTubeLoader.load net (St l lg) = (Returns tt, s')
  /\ YouTubeLoader.get_metadata s' = (Returns (JObject fields), s')
  /\ (fields !! "title" = None -> field "title" = "Unknown")
  /\ (fields !! "author_name" = None -> field "author_name" = "Unknown").
Proof.
  intros Hincl Hf Hget Hst Hbody field doc s'.
  destruct l as [u incl docs md0 vid]. simpl in *. subst incl.
  split; [|split; [reflexivity|split]].
  - now rewrite (load_with_metadata_step net u vid docs md0 lg d r
                   (JObject fields) Hf Hget Hst Hbody).
  - intros Hnone. unfold field. now rewrite Hnone.
  - intros Hnone. unfold field. now rewrite Hnone.
Qed.

Lemma load_with_metadata_witness :
  let fields : gmap string json_scalar := <["title" := JStr "A talk"]> ∅ in
  let net :=
    MkNetwork
      (fun _ _ => Returns (MkResponse None (Returns (JObject fields))))
      (fun _ _ => Returns (MkTranscript [MkSnippet "hello"; MkSnippet "world"])) in
  let l := YouTubeLoader.MkLoader "https://youtu.be/abc" true [] (JObject ∅) "abc" in
  let field key := scalar_str (from_option id (JStr "Unknown") (fields !! key)) in
  let doc :=
    YouTubeLoader.format_document "A talk" "Unknown" "abc" "https://youtu.be/abc"
                                  "hello world" in
  let s' :=
    St (YouTubeLoader.MkLoader "https://youtu.be/abc" true [doc] (JObject fields) "abc")
       [EvTranscriptFetch "abc" (Some ["en"]);
        EvHttpGet "https://www.youtube.com/oembed?url=https://youtu.be/abc&format=json" 10] in
  YouTubeLoader.load net (St l []) = (Returns tt, s')
  /\ YouTubeLoader.get_metadata s' = (Returns (JObject fields), s')
  /\ (fields !! "title" = None -> field "title" = "Unknown")
  /\ (fields !! "author_name" = None -> field "author_name" = "Unknown").
Proof.
  intros fields net l.
  apply (load_with_metadata net l []
           (MkTranscript [MkSnippet "hello"; MkSnippet "world"])
           (MkResponse None (Returns (JObject fields))) fields);
    reflexivity.
Defined.

(** X14. When the metadata response decodes to JSON that is not an object
    (an array or a scalar), [load] raises the error of the failed [.get]
    and appends no document, yet [metadata] has already been overwritten
    with that value. *)
Theorem load_with_non_object_metadata (net : network) (l : YouTubeLoader.t)
    (lg : list event) (d : fetched_transcript) (r : response) (m : json) :
  YouTubeLoader.include_metadata l = true ->
  LoaderSpec.fetched net (YouTubeLoader.video_id l) = Returns d ->
  http_get net (YouTubeLoader.oembed_url (YouTubeLoader.url l)) 10 = Returns r ->
  raise_for_status r = None ->
  json_body r = Returns m ->
  (forall fields, m <> JObject fields) ->
  YouTubeLoader.load net (St l lg)
  = (Raises (Exn ValueError
                 ("Failed to load YouTube video: '" +:+ type_name m
                    +:+ "' object has no attribute 'get'")),
     St (YouTubeLoader.MkLoader (YouTubeLoader.url l) true
           (YouTubeLoader.documents l) m (YouTubeLoader.video_id l))
        (lg ++ LoaderSpec.transcript_calls net (YouTubeLoader.video_id l)
            ++ [EvHttpGet (YouTubeLoader.oembed_url (YouTubeLoader.url l)) 10])).
Proof.
  intros Hincl Hf Hget Hst Hbody Hnot.
  destruct l as [u incl docs md0 vid]. simpl in *. subst incl.
  rewrite (load_with_metadata_step net u vid docs md0 lg d r m Hf Hget Hst Hbody).
  destruct m as [fields | | v]; [now destruct (Hnot fields) | reflexivity ..].
Qed.

Lemma load_with_non_object_metadata_witness :
  let net :=
    MkNetwork
      (fun _ _ => Returns (MkResponse None (Returns JArray)))
      (fun _ _ => Returns (MkTranscript [MkSnippet "hello"; MkSnippet "world"])) in
  let l := YouTubeLoader.MkLoader "https://youtu.be/abc" true ["earlier"]
                                  (JObject ∅) "abc" in
  YouTubeLoader.load net (St l [])
  = (Raises (Exn ValueError
       "Failed to load YouTube video: 'list' object has no attribute 'get'"),
     St (YouTubeLoader.MkLoader "https://youtu.be/abc" true ["earlier"] JArray "abc")
        [EvTranscriptFetch "abc" (Some ["en"]);
         EvHttpGet "https://www.youtube.com/oembed?url=https://youtu.be/abc&format=json" 10]).
Proof.
  intros net l.
  apply (load_with_non_object_metadata net l []
           (MkTranscript [MkSnippet "hello"; MkSnippet "world"])
           (MkResponse None (Returns JArray)) JArray);
    try reflexivity.
  intros fields. discriminate.
Defined.

(** ** The identifier patterns *)

Lemma strip_spec (lit s rest : string) :
  Re.strip lit s = Some rest -> s = lit +:+ rest.
Proof.
  revert s. induction lit as [|a lit IH]; intros s H.
  - simpl in H. now injection H as ->.
  - destruct s as [|b s]; [discriminate|]. simpl in H.
    destruct (Ascii.eqb_spec a b) as [->|]; [|discriminate].
    change (String b s = String b (lit +:+ rest)). f_equal. now apply IH.
Qed.

Lemma span_class_spec (s : string) :
  all_in_class (Re.span_class s)
  /\ exists rest, s = Re.span_class s +:+ rest /\ stops_at_delimiter rest.
Proof.
  induction s as [|c s (Hall & rest & Hs & Hstop)].
  - split; [intros i c H; destruct i; discriminate|].
    exists "". split; [reflexivity | exact I].
  - simpl. destruct (Re.in_class c) eqn:Hc.
    + split.
      * intros [|i] c' H; simpl in H.
        -- now injection H as <-.
        -- now apply (Hall i).
      * exists rest. split; [|exact Hstop].
        change (String c s = String c (Re.span_class s +:+ rest)). now f_equal.
    + split; [intros i c' H; destruct i; discriminate|].
      exists (String c s). split; [reflexivity | exact Hc].
Qed.

Lemma match_literal_spec (lit s g : string) :
  Re.match_literal lit s = Some g ->
  g <> "" /\ all_in_class g
  /\ exists post, s = lit +:+ g +:+ post /\ stops_at_delimiter post.
Proof.
  unfold Re.match_literal.
  destruct (Re.strip lit s) as [rest|] eqn:Hstrip; [|discriminate].
  apply strip_spec in Hstrip. subst s.
  destruct (span_class_spec rest) as (Hall & post & Hrest & Hstop).
  destruct (Re.span_class rest) as [|c g'] eqn:Hspan; [discriminate|].
  intros [= <-]. split; [discriminate|]. split; [exact Hall|].
  exists post. split; [now rewrite <- Hrest | exact Hstop].
Qed.

Lemma match_here_spec (literals : list string) (s g : string) :
  Re.match_here literals s = Some g ->
  exists lit, In lit literals /\ Re.match_literal lit s = Some g.
Proof.
  induction literals as [|lit literals IH]; simpl; [discriminate|].
  destruct (Re.match_literal lit s) as [g'|] eqn:Hlit.
  - intros [= <-]. exists lit. auto.
  - intros H. destruct (IH H) as (lit' & Hin & Hm). exists lit'. auto.
Qed.

Lemma re_search_spec (literals : list string) (s g : string) :
  Re.re_search literals s = Some g ->
  exists pre suffix, s = pre +:+ suffix /\ Re.match_here literals suffix = Some g.
Proof.
  induction s as [|c s IH]; simpl.
  - destruct (Re.match_here literals "") as [g'|] eqn:Hm; [|discriminate].
    intros [= <-]. exists "", "". auto.
  - destruct (Re.match_here literals (String c s)) as [g'|] eqn:Hm.
    + intros [= <-]. exists "", (String c s). auto.
    + intros H. destruct (IH H) as (pre & suffix & -> & Hs).
      exists (String c pre), suffix. split; [reflexivity | exact Hs].
Qed.

Lemma first_group_spec (ps : list (list string)) (u g : string) :
  YouTubeLoader.first_group ps u = Some g ->
  exists p, In p ps /\ Re.re_search p u = Some g.
Proof.
  induction ps as [|p ps IH]; simpl; [discriminate|].
  destruct (Re.re_search p u) as [g'|] eqn:Hp.
  - intros [= <-]. exists p. auto.
  - intros H. destruct (IH H) as (q & Hin & Hq). exists q. auto.
Qed.

(** X15. Whenever the constructor returns a loader, its [video_id] is not
    empty, contains none of the characters [&], line feed, [?] and [#], and
    is the piece of the URL that follows an occurrence of one of the
    patterns' literals and runs up to the next such character or the end of
    the URL. The loader starts with no documents and empty metadata. *)
Theorem video_id_shape (u : string) (incl : bool) (l : YouTubeLoader.t) :
  YouTubeLoader.__init__ u incl = Returns l ->
  YouTubeLoader.video_id l <> ""
  /\ all_in_class (YouTubeLoader.video_id l)
  /\ (exists pre lit post,
        In lit (concat YouTubeLoader.patterns)
        /\ u = pre +:+ lit +:+ YouTubeLoader.video_id l +:+ post
        /\ stops_at_delimiter post)
  /\ l = YouTubeLoader.MkLoader u incl [] (JObject ∅) (YouTubeLoader.video_id l).
Proof.
  unfold YouTubeLoader.__init__, YouTubeLoader._extract_video_id.
  destruct (YouTubeLoader.first_group YouTubeLoader.patterns u) as [g|] eqn:Hg;
    [|discriminate].
  intros [= <-]. cbn [YouTubeLoader.video_id].
  apply first_group_spec in Hg as (p & Hp & Hsearch).
  apply re_search_spec in Hsearch as (pre & suffix & -> & Hhere).
  apply match_here_spec in Hhere as (lit & Hlit & Hm).
  apply match_literal_spec in Hm as (Hne & Hall & post & -> & Hstop).
  split; [exact Hne|]. split; [exact Hall|]. split; [|reflexivity].
  exists pre, lit, post. split; [|split; [reflexivity | exact Hstop]].
  apply in_concat. exists p. auto.
Qed.

Lemma video_id_shape_witness :
  let u := "https://www.youtube.com/watch?v=dQw4w9WgXcQ&t=42s" in
  let l := YouTubeLoader.MkLoader u true [] (JObject ∅) "dQw4w9WgXcQ" in
  YouTubeLoader.video_id l <> ""
  /\ all_in_class (YouTubeLoader.video_id l)
  /\ (exists pre lit post,
        In lit (concat YouTubeLoader.patterns)
        /\ u = pre +:+ lit +:+ YouTubeLoader.video_id l +:+ post
        /\ stops_at_delimiter post)
  /\ l = YouTubeLoader.MkLoader u true [] (JObject ∅) (YouTubeLoader.video_id l).
Proof.
  intros u l. apply (video_id_shape u true l). reflexivity.
Defined.

Lemma match_here_none_incl (literals literals' : list string) (s : string) :
  (forall lit, In lit literals' -> In lit literals) ->
  Re.match_here literals s = None ->
  Re.match_here literals' s = None.
Proof.
  intros Hincl Hnone.
  assert (Hall : forall lit, In lit literals -> Re.match_literal lit s = None).
  { clear Hincl. induction literals as [|a literals IH]; [intros lit []|].
    simpl in Hnone. destruct (Re.match_literal a s) eqn:Ha; [discriminate|].
    intros lit [<- | Hin]; [exact Ha | now apply IH]. }
  induction literals' as [|a literals' IH]; [reflexivity|].
  simpl. rewrite (Hall a) by (apply Hincl; now left).
  apply IH. intros lit Hin. apply Hincl. now right.
Qed.

Lemma re_search_none_incl (literals literals' : list string) (s : string) :
  (forall lit, In lit literals' -> In lit literals) ->
  Re.re_search literals s = None ->
  Re.re_search literals' s = None.
Proof.
  intros Hincl. induction s as [|c s IH]; simpl.
  - destruct (Re.match_here literals "") eqn:Hm; [discriminate|].
    intros _. now rewrite (match_here_none_incl literals literals' "" Hincl Hm).
  - destruct (Re.match_here literals (String c s)) eqn:Hm; [discriminate|].
    intros H. rewrite (match_here_none_incl literals literals' _ Hincl Hm).
    now apply IH.
Qed.

(** X16. The third pattern never decides an identifier: its only literal is
    already an alternative of the first pattern, so for every URL the loop
    over the three patterns gives what the loop over the first two gives. *)
Theorem third_pattern_is_redundant (u : string) :
  YouTubeLoader.first_group YouTubeLoader.patterns u
  = YouTubeLoader.first_group
      [["youtube.com/watch?v="; "youtu.be/"; "youtube.com/embed/"];
       ["youtube.com/v/"]] u.
Proof.
  unfold YouTubeLoader.patterns. simpl.
  destruct (Re.re_search ["youtube.com/watch?v="; "youtu.be/"; "youtube.com/embed/"] u)
    eqn:H1; [reflexivity|].
  destruct (Re.re_search ["youtube.com/v/"] u); [reflexivity|].
  rewrite (re_search_none_incl
             ["youtube.com/watch?v="; "youtu.be/"; "youtube.com/embed/"]
             ["youtube.com/embed/"] u); [reflexivity | | exact H1].
  intros lit [<- | []]. right; right; left; reflexivity.
Qed.

(** ** The script *)

(** The script once the file is loaded and split: what it prints, and where
    an index out of range stops it. *)
Lemma main_after_split (fs : filesystem) (l0 loader : TextFileLoader.t)
    (lg lg' : list event) (chunks : list string) :
  TextFileLoader.load fs (St l0 lg) = (Returns tt, St loader lg') ->
  CharacterTextSplitter.split_texts (MkSplitter 1000 200)
    (TextFileLoader.documents loader) = Returns chunks ->
  let printed lines := St loader (lg' ++ map EvPrint lines) in
  let count := pretty (length chunks) in
  Main.main fs (St l0 lg)
  = match py_index chunks 0 with
    | Raises e => (Raises e, printed [count])
    | Returns c0 =>
        match py_index chunks 1 with
        | Raises e => (Raises e, printed [count; c0; Main.separator])
        | Returns c1 =>
            match py_index chunks (-2) with
            | Raises e =>
                (Raises e,
                 printed [count; c0; Main.separator; c1; Main.separator])
            | Returns c2 =>
                match py_index chunks (-1) with
                | Raises e =>
                    (Raises e,
                     printed [count; c0; Main.separator; c1; Main.separator;
                              c2; Main.separator])
                | Returns c3 =>
                    (Returns tt,
                     printed [count; c0; Main.separator; c1; Main.separator;
                              c2; Main.separator; c3])
                end
            end
        end
    end.
Proof.
  intros Hload Hsplit printed count.
  unfold Main.main. unfold Eff.bind at 1. rewrite Hload.
  unfold Eff.bind at 1. unfold Eff.lift at 1.
  change (CharacterTextSplitter.__init__ CharacterTextSplitter.default_chunk_size
            CharacterTextSplitter.default_chunk_overlap)
    with (Returns (MkSplitter 1000 200)).
  cbv beta iota.
  unfold Eff.bind at 1. unfold Eff.get_self at 1. cbv beta iota.
  cbn [self]. unfold Eff.bind at 1. unfold Eff.lift at 1. rewrite Hsplit.
  fold count.
  generalize (py_index chunks 0) (py_index chunks 1)
             (py_index chunks (-2)) (py_index chunks (-1)).
  intros r0 r1 r2 r3. unfold printed.
  unfold Eff.bind, Eff.emit, Eff.lift. cbn [self log].
  destruct r0 as [c0|e]; [|reflexivity].
  destruct r1 as [c1|e]; [|now rewrite <- !app_assoc].
  destruct r2 as [c2|e]; [|now rewrite <- !app_assoc].
  destruct r3 as [c3|e]; now rewrite <- !app_assoc.
Qed.

Lemma lookup_map_seq {A} (f : nat -> A) (N k : nat) :
  (k < N)%nat -> map f (seq 0 N) !! k = Some (f k).
Proof.
  intros Hk. change (map f (seq 0 N)) with (f <$> seq 0 N).
  rewrite list_lookup_fmap, lookup_seq_lt by exact Hk. reflexivity.
Qed.

Lemma py_index_map_seq {A} (f : nat -> A) (N k : nat) :
  (k < N)%nat -> py_index (map f (seq 0 N)) (Z.of_nat k) = Returns (f k).
Proof.
  intros Hk. unfold py_index. rewrite length_map, length_seq.
  destruct (Z.ltb_spec (Z.of_nat k) 0); [lia|].
  destruct (Z.leb_spec 0 (Z.of_nat k)); [|lia].
  destruct (Z.ltb_spec (Z.of_nat k) (Z.of_nat N)); [|lia].
  simpl. rewrite Nat2Z.id, lookup_map_seq by exact Hk. reflexivity.
Qed.

Lemma py_index_map_seq_from_end {A} (f : nat -> A) (N k : nat) :
  (1 <= k <= N)%nat ->
  py_index (map f (seq 0 N)) (- Z.of_nat k) = Returns (f (N - k)%nat).
Proof.
  intros Hk. unfold py_index. rewrite length_map, length_seq.
  destruct (Z.ltb_spec (- Z.of_nat k) 0); [|lia].
  destruct (Z.leb_spec 0 (- Z.of_nat k + Z.of_nat N)); [|lia].
  destruct (Z.ltb_spec (- Z.of_nat k + Z.of_nat N) (Z.of_nat N)); [|lia].
  simpl.
  replace (Z.to_nat (- Z.of_nat k + Z.of_nat N)) with (N - k)%nat by lia.
  rewrite lookup_map_seq by lia. reflexivity.
Qed.

Lemma py_index_out_of_range {A} (l : list A) (k : nat) :
  (length l <= k)%nat ->
  py_index l (Z.of_nat k)
  = Raises (Exn (OtherException "IndexError") "list index out of range").
Proof.
  intros Hk. unfold py_index.
  destruct (Z.ltb_spec (Z.of_nat k) 0); [lia|].
  destruct (Z.ltb_spec (Z.of_nat k) (Z.of_nat (length l))); [lia|].
  now rewrite andb_false_r.
Qed.

Lemma main_load_and_split (fs : filesystem) (rd : string -> outcome string)
    (c : string) :
  fs Main.corpus_path = Some (File rd) ->
  rd "utf-8" = Returns c ->
  exists N : nat,
    TextFileLoader.load fs
      (St (TextFileLoader.__init__ Main.corpus_path
                                   TextFileLoader.default_encoding) [])
    = (Returns tt,
       St (TextFileLoader.MkLoader [c] Main.corpus_path "utf-8")
          [EvIsDir Main.corpus_path; EvIsFile Main.corpus_path;
           EvOpen Main.corpus_path "utf-8"])
    /\ CharacterTextSplitter.split_texts (MkSplitter 1000 200) [c]
       = Returns (map (fun k => substring (k * 800) 1000 c) (seq 0 N))
    /\ (String.length c <= N * 800)%nat
    /\ (forall k, (k < N)%nat -> (k * 800 < String.length c)%nat).
Proof.
  intros Hfile Hrd.
  destruct (split_closed_nat (MkSplitter 1000 200) c ltac:(simpl; lia)
              ltac:(simpl; lia)) as (N & Hsplit & _ & _ & HN & Hk).
  exists N. split; [|split; [|split; [exact HN | exact Hk]]].
  - unfold TextFileLoader.load, TextFileLoader.load_file,
      TextFileLoader.open_read, TextFileLoader.append_document,
      OsPath.isdir, OsPath.isfile.
    run_eff. rewrite Hfile. simpl. rewrite Hfile. simpl.
    change TextFileLoader.default_encoding with "utf-8". rewrite Hrd.
    reflexivity.
  - cbn [CharacterTextSplitter.split_texts]. rewrite Hsplit.
    rewrite app_nil_r. reflexivity.
Qed.

(** X17. When [data/KingLear.txt] is a readable file of more than 800
    characters, the script returns after printing eight lines: the number
    [N] of chunks ([len(text)] over 800, rounded up, at least 2), the
    chunk at offset 0, the chunk at offset 800, the last but one chunk and
    the last chunk, with a line of dashes between the chunks. *)
Theorem main_prints_count_and_four_chunks (fs : filesystem)
    (rd : string -> outcome string) (c : string) :
  fs Main.corpus_path = Some (File rd) ->
  rd "utf-8" = Returns c ->
  (800 < String.length c)%nat ->
  exists N : nat,
    (2 <= N)%nat
    /\ ((N - 1) * 800 < String.length c <= N * 800)%nat
    /\ Main.run fs
       = (Returns tt,
          St (TextFileLoader.MkLoader [c] Main.corpus_path "utf-8")
             ([EvIsDir Main.corpus_path; EvIsFile Main.corpus_path;
               EvOpen Main.corpus_path "utf-8"]
              ++ map EvPrint
                   [pretty N;
                    substring 0 1000 c; Main.separator;
                    substring 800 1000 c; Main.separator;
                    substring ((N - 2) * 800) 1000 c; Main.separator;
                    substring ((N - 1) * 800) 1000 c])).
Proof.
  intros Hfile Hrd Hlong.
  destruct (main_load_and_split fs rd c Hfile Hrd) as (N & Hload & Hsplit & HN & Hk).
  assert (HN2 : (2 <= N)%nat) by lia.
  exists N. split; [exact HN2|]. split.
  - specialize (Hk (N - 1)%nat ltac:(lia)). lia.
  - unfold Main.run.
    rewrite (main_after_split fs _ _ _ _ _ Hload Hsplit).
    rewrite (py_index_map_seq _ N 0) by lia.
    rewrite (py_index_map_seq _ N 1) by lia.
    rewrite (py_index_map_seq_from_end _ N 2) by lia.
    rewrite (py_index_map_seq_from_end _ N 1) by lia.
    rewrite length_map, length_seq. reflexivity.
Qed.

Lemma main_prints_count_and_four_chunks_witness :
  let c := String.concat "" (repeat "0123456789" 81) in
  let fs : filesystem :=
    fun p => if String.eqb p "data/KingLear.txt"
             then Some (File (fun _ => Returns c)) else None in
  exists N : nat,
    (2 <= N)%nat
    /\ ((N - 1) * 800 < String.length c <= N * 800)%nat
    /\ Main.run fs
       = (Returns tt,
          St (TextFileLoader.MkLoader [c] Main.corpus_path "utf-8")
             ([EvIsDir Main.corpus_path; EvIsFile Main.corpus_path;
               EvOpen Main.corpus_path "utf-8"]
              ++ map EvPrint
                   [pretty N;
                    substring 0 1000 c; Main.separator;
                    substring 800 1000 c; Main.separator;
                    substring ((N - 2) * 800) 1000 c; Main.separator;
                    substring ((N - 1) * 800) 1000 c])).
Proof.
  intros c fs.
  apply (main_prints_count_and_four_chunks fs (fun _ => Returns c) c).
  - reflexivity.
  - reflexivity.
  - vm_compute. lia.
Defined.

(** X18. When [data/KingLear.txt] is a readable file of at most 800
    characters, the script raises [IndexError]: it has loaded the file and
    printed the count ([0] for an empty file, else [1]), the single chunk
    and a line of dashes if there is a chunk, and then stops at [chunks[0]]
    or [chunks[1]]. *)
Theorem main_raises_on_short_file (fs : filesystem)
    (rd : string -> outcome string) (c : string) :
  fs Main.corpus_path = Some (File rd) ->
  rd "utf-8" = Returns c ->
  (String.length c <= 800)%nat ->
  Main.run fs
  = (Raises (Exn (OtherException "IndexError") "list index out of range"),
     St (TextFileLoader.MkLoader [c] Main.corpus_path "utf-8")
        ([EvIsDir Main.corpus_path; EvIsFile Main.corpus_path;
          EvOpen Main.corpus_path "utf-8"]
         ++ map EvPrint
              (match c with
               | EmptyString => ["0"]
               | String _ _ => ["1"; c; Main.separator]
               end))).
Proof.
  intros Hfile Hrd Hshort.
  destruct (main_load_and_split fs rd c Hfile Hrd) as (N & Hload & Hsplit & HN & Hk).
  unfold Main.run. rewrite (main_after_split fs _ _ _ _ _ Hload Hsplit).
  rewrite length_map, length_seq.
  destruct c as [|a c].
  - assert (N = 0%nat) as ->.
    { destruct N; [reflexivity|]. specialize (Hk 0%nat ltac:(lia)). simpl in Hk. lia. }
    reflexivity.
  - assert (N = 1%nat) as ->.
    { destruct N as [|[|N]]; [simpl in HN; lia | reflexivity |].
      specialize (Hk 1%nat ltac:(lia)). lia. }
    rewrite (py_index_map_seq _ 1 0) by lia.
    rewrite (py_index_out_of_range _ 1) by (simpl; lia).
    rewrite substring_full by lia. reflexivity.
Qed.

Lemma main_raises_on_short_file_witness :
  let fs : filesystem :=
    fun p => if String.eqb p "data/KingLear.txt"
             then Some (File (fun _ => Returns "Nothing will come of nothing."))
             else None in
  Main.run fs
  = (Raises (Exn (OtherException "IndexError") "list index out of range"),
     St (TextFileLoader.MkLoader ["Nothing will come of nothing."]
                                 Main.corpus_path "utf-8")
        ([EvIsDir Main.corpus_path; EvIsFile Main.corpus_path;
          EvOpen Main.corpus_path "utf-8"]
         ++ map EvPrint ["1"; "Nothing will come of nothing."; Main.separator])).
Proof.
  intros fs.
  apply (main_raises_on_short_file fs
           (fun _ => Returns "Nothing will come of nothing.")
           "Nothing will come of nothing.").
  - reflexivity.
  - reflexivity.
  - vm_compute. lia.
Defined.

(** ** What the loaders call *)

(** X19. [_get_video_metadata] makes one GET request, with a timeout of 10,
    to the oEmbed address built from the loader's URL, and leaves the loader
    as it is. It ends in one of three ways: it returns the decoded body of a
    response whose status check passed; or the request, the status check or
    the decoding raised an instance of [Exception], and it prints a warning
    that shows the exception and returns the placeholder; or one of them
    raised an exception that is not an instance of [Exception]
    ([KeyboardInterrupt], [SystemExit]), which the handler does not catch:
    the same exception comes out, and nothing is printed. *)
Theorem get_video_metadata_outcomes (net : network) (l : YouTubeLoader.t)
    (lg : list event) :
  let request := EvHttpGet (YouTubeLoader.oembed_url (YouTubeLoader.url l)) 10 in
  (exists (r : response) (m : json),
      http_get net (YouTubeLoader.oembed_url (YouTubeLoader.url l)) 10 = Returns r
      /\ raise_for_status r = None /\ json_body r = Returns m
      /\ YouTubeLoader._get_video_metadata net (St l lg)
         = (Returns m, St l (lg ++ [request])))
  \/ (exists e : exn,
        LoaderSpec.metadata_fetch_fails net (YouTubeLoader.url l) e
        /\ is_exception e = true
        /\ YouTubeLoader._get_video_metadata net (St l lg)
           = (Returns (JObject YouTubeLoader.placeholder_metadata),
              St l (lg ++ [request;
                           EvPrint ("Warning: Could not fetch video metadata: "
                                      +:+ exn_str e)])))
  \/ (exists e : exn,
        LoaderSpec.metadata_fetch_fails net (YouTubeLoader.url l) e
        /\ is_exception e = false
        /\ YouTubeLoader._get_video_metadata net (St l lg)
           = (Raises e, St l (lg ++ [request]))).
Proof.
  intros request.
  assert (Hfails : forall e,
             LoaderSpec.metadata_fetch_fails net (YouTubeLoader.url l) e ->
             (exists e : exn,
                 LoaderSpec.metadata_fetch_fails net (YouTubeLoader.url l) e
                 /\ is_exception e = true
                 /\ YouTubeLoader._get_video_metadata net (St l lg)
                    = (Returns (JObject YouTubeLoader.placeholder_metadata),
                       St l (lg ++ [request;
                                    EvPrint ("Warning: Could not fetch video metadata: "
                                               +:+ exn_str e)])))
             \/ (exists e : exn,
                    LoaderSpec.metadata_fetch_fails net (YouTubeLoader.url l) e
                    /\ is_exception e = false
                    /\ YouTubeLoader._get_video_metadata net (St l lg)
                       = (Raises e, St l (lg ++ [request])))).
  { intros e Hfail.
    pose proof (get_video_metadata_run net l lg) as Hrun. cbv zeta in Hrun.
    rewrite (proj1 (metadata_fetch_fails_response net _ e) Hfail) in Hrun.
    destruct (is_exception e) eqn:Hexc; [left | right];
      exists e; repeat split; assumption. }
  destruct (http_get net (YouTubeLoader.oembed_url (YouTubeLoader.url l)) 10)
    as [r|e] eqn:Hget.
  - destruct (raise_for_status r) as [e|] eqn:Hst.
    + right. apply (Hfails e). now apply LoaderSpec.bad_status with r.
    + destruct (json_body r) as [m|e] eqn:Hbody.
      * left. exists r, m. repeat split; try assumption.
        unfold YouTubeLoader._get_video_metadata. run_eff.
        rewrite Hget. simpl. rewrite Hst, Hbody. reflexivity.
      * right. apply (Hfails e). now apply LoaderSpec.malformed_response with r.
  - right. apply (Hfails e). now apply LoaderSpec.network_error.
Qed.

(** A metadata request interrupted from the keyboard: the interrupt comes
    out of [_get_video_metadata], and no warning is printed. *)
Example get_video_metadata_keyboard_interrupt :
  let net := MkNetwork (fun _ _ => Raises (Exn (NonException "KeyboardInterrupt") ""))
                       (fun _ _ => Returns (MkTranscript [])) in
  let l := YouTubeLoader.MkLoader "https://youtu.be/dQw4w9WgXcQ" true []
                                  (JObject ∅) "dQw4w9WgXcQ" in
  YouTubeLoader._get_video_metadata net (St l [])
  = (Raises (Exn (NonException "KeyboardInterrupt") ""),
     St l [EvHttpGet (YouTubeLoader.oembed_url "https://youtu.be/dQw4w9WgXcQ") 10]).
Proof. reflexivity. Qed.

Section EmitsOnly.
Context {Obj : Type}.
Variable I : Obj -> Prop.
Variable Q : event -> Prop.

Lemma emits_only_silent {A} (m : M Obj A) :
  (forall s, I (self s) -> log (snd (m s)) = log s /\ I (self (snd (m s)))) ->
  emits_only I Q m.
Proof.
  intros Hm s Hs. destruct (Hm s Hs) as [Hlog Hinv].
  exists []. rewrite Hlog, app_nil_r. repeat split; [constructor | exact Hinv].
Qed.

Lemma emits_only_emit (ev : event) : Q ev -> emits_only I Q (Eff.emit ev).
Proof.
  intros Hev s Hs. exists [ev].
  repeat split; [repeat constructor; exact Hev | exact Hs].
Qed.

Lemma emits_only_bind {A B} (m : M Obj A) (k : A -> M Obj B) :
  emits_only I Q m -> (forall a, emits_only I Q (k a)) ->
  emits_only I Q (Eff.bind m k).
Proof.
  intros Hm Hk s Hs. unfold Eff.bind.
  destruct (Hm s Hs) as (evs & Hlog & Hevs & Hinv).
  destruct (m s) as [[a|e] s1]; simpl in *.
  - destruct (Hk a s1 Hinv) as (evs' & Hlog' & Hevs' & Hinv').
    exists (evs ++ evs'). rewrite Hlog', Hlog, app_assoc.
    repeat split; [now apply Forall_app | exact Hinv'].
  - exists evs. auto.
Qed.

(** After reading [self], what follows may rely on [I]. *)
Lemma emits_only_get_self {A} (k : Obj -> M Obj A) :
  (forall o, I o -> emits_only I Q (k o)) ->
  emits_only I Q (Eff.bind Eff.get_self k).
Proof.
  intros Hk s Hs. unfold Eff.bind, Eff.get_self. simpl.
  exact (Hk (self s) Hs s Hs).
Qed.

Lemma emits_only_for_each {A} (xs : list A) (body : A -> M Obj unit) :
  (forall x, emits_only I Q (body x)) -> emits_only I Q (Eff.for_each xs body).
Proof.
  intros Hbody. induction xs as [|x xs IH]; simpl.
  - apply emits_only_silent. intros s Hs. now split.
  - apply emits_only_bind; [apply Hbody | intros _; exact IH].
Qed.

End EmitsOnly.

Lemma endswith_append (a b p : string) :
  PyStr.endswith b p = true -> PyStr.endswith (a +:+ b) p = true.
Proof.
  unfold PyStr.endswith. intros H.
  apply andb_true_iff in H as [Hle Heq].
  apply Nat.leb_le in Hle. apply String.eqb_eq in Heq.
  apply andb_true_iff. rewrite length_append. split; [apply Nat.leb_le; lia|].
  apply String.eqb_eq.
  transitivity (substring (String.length b - String.length p) (String.length p) b);
    [|exact Heq].
  apply get_correct; intros i. rewrite !get_substring.
  destruct (Nat.ltb_spec i (String.length p)); [|reflexivity].
  rewrite get_append.
  destruct (Nat.ltb_spec
              (i + (String.length a + String.length b - String.length p))
              (String.length a)); [lia|].
  f_equal. lia.
Qed.

Lemma endswith_join (root file p : string) :
  PyStr.endswith file p = true -> PyStr.endswith (OsPath.join root file) p = true.
Proof.
  intros H. unfold OsPath.join.
  destruct (PyStr.startswith file "/"); [exact H|].
  destruct (String.eqb root "" || PyStr.endswith root "/").
  - now apply endswith_append.
  - apply endswith_append. now apply endswith_append.
Qed.

(** X20. Whatever the file system holds and however the load ends, a
    [TextFileLoader.load] only checks what its path names, walks it, and
    opens paths that end in [".txt"]: it never opens any other file and
    makes no other call. *)
Theorem load_opens_only_text_files (fs : filesystem) (l : TextFileLoader.t)
    (lg : list event) :
  exists evs : list event,
    log (snd (TextFileLoader.load fs (St l lg))) = lg ++ evs
    /\ Forall text_file_access evs.
Proof.
  set (p := TextFileLoader.path l).
  set (I := fun o : TextFileLoader.t => TextFileLoader.path o = p).
  assert (Hpure : forall {A} (m : M TextFileLoader.t A),
             (forall s, m s = (fst (m s), s)) ->
             emits_only I text_file_access m).
  { intros A m Hm. apply emits_only_silent. intros s Hs. rewrite Hm. now split. }
  assert (Hopen : forall q enc target,
             PyStr.endswith q ".txt" = true ->
             emits_only I text_file_access (TextFileLoader.open_read q enc target)).
  { intros q enc target Hq. unfold TextFileLoader.open_read.
    apply emits_only_bind; [now apply emits_only_emit|]. intros _.
    destruct target as [[rd|es]|]; now apply Hpure. }
  assert (Happend : forall doc,
             emits_only I text_file_access (TextFileLoader.append_document doc)).
  { intros doc. apply emits_only_silent. intros s Hs. split; [reflexivity|exact Hs]. }
  assert (Hload : emits_only I text_file_access (TextFileLoader.load fs)).
  { unfold TextFileLoader.load.
    apply emits_only_get_self. intros l0 Hl0.
    apply emits_only_bind; [now apply emits_only_emit|]. intros _.
    destruct (OsPath.isdir fs (TextFileLoader.path l0)).
    - unfold TextFileLoader.load_directory.
      apply emits_only_get_self. intros l1 Hl1.
      apply emits_only_bind; [now apply emits_only_emit|]. intros _.
      apply emits_only_for_each. intros [[root dirs] files].
      apply emits_only_for_each. intros [file rd].
      unfold TextFileLoader.load_walked_file.
      destruct (PyStr.endswith file ".txt") eqn:Htxt; [|now apply Hpure].
      apply emits_only_get_self. intros l2 Hl2.
      apply emits_only_bind; [|exact Happend].
      apply Hopen. now apply endswith_join.
    - apply emits_only_bind; [now apply emits_only_emit|]. intros _.
      destruct (OsPath.isfile fs (TextFileLoader.path l0)
                && PyStr.endswith (TextFileLoader.path l0) ".txt") eqn:Hcond;
        [|now apply Hpure].
      apply andb_true_iff in Hcond as [_ Htxt].
      unfold TextFileLoader.load_file.
      apply emits_only_get_self. intros l1 Hl1.
      apply emits_only_bind; [|exact Happend].
      apply Hopen. unfold I in Hl0, Hl1. now rewrite Hl1, <- Hl0. }
  destruct (Hload (St l lg) eq_refl) as (evs & Hlog & Hevs & _).
  exists evs. auto.
Qed.
